(** * normalize_notebooks.py: a shallow embedding and its properties

    The script under [scripts/normalize_notebooks.py] rewrites the YAML-like
    front matter of the first cell of a notebook, gives every cell an [id]
    and writes the notebook back when it recorded a change.

    Python's [str] is modelled by [string]: a sequence of code points, each
    an [ascii] read as a code point in the range 0..255 (ASCII and the
    Latin-1 supplement).  The [str] methods below follow CPython's behaviour
    on that range; text with code points above 255 is outside the model. *)

From Stdlib Require Import Ascii NArith Lia.
From Stdlib Require String.
From stdpp Require Import base strings gmap.

Local Open Scope N_scope.

(** ** Python's string methods *)

Module Py.

(** [Py_UNICODE_ISSPACE]: used by [str.strip], [str.lstrip] and by the
    regular expression class [\s] of a [str] pattern. *)
Definition isspace (c : ascii) : bool :=
  let n := N_of_ascii c in
  ((9 <=? n) && (n <=? 13)) || ((28 <=? n) && (n <=? 32))
  || (n =? 133) || (n =? 160).

(** The line boundaries of [str.splitlines]: LF, VT, FF, CR, FS, GS, RS and
    NEL (U+2028 and U+2029 are above 255). *)
Definition islinebreak (c : ascii) : bool :=
  let n := N_of_ascii c in
  ((10 <=? n) && (n <=? 13)) || ((28 <=? n) && (n <=? 30)) || (n =? 133).

(** [str.lower] on one code point: A-Z, and the Latin-1 capitals
    U+00C0..U+00DE without the multiplication sign U+00D7. *)
Definition lower_char (c : ascii) : ascii :=
  let n := N_of_ascii c in
  if ((65 <=? n) && (n <=? 90))
     || ((192 <=? n) && (n <=? 222) && negb (n =? 215))
  then ascii_of_N (n + 32) else c.

Fixpoint lower (s : string) : string :=
  match s with
  | EmptyString => EmptyString
  | String c s' => String (lower_char c) (lower s')
  end.

Fixpoint lstrip (s : string) : string :=
  match s with
  | EmptyString => EmptyString
  | String c s' => if isspace c then lstrip s' else s
  end.

Fixpoint rstrip (s : string) : string :=
  match s with
  | EmptyString => EmptyString
  | String c s' =>
      match rstrip s' with
      | EmptyString => if isspace c then EmptyString else String c EmptyString
      | r => String c r
      end
  end.

(** [s.strip()] drops the white space of both ends. *)
Definition strip (s : string) : string := rstrip (lstrip s).

(** [s.startswith(p)] *)
Definition startswith (s p : string) : bool := String.prefix p s.

(** [s.endswith(p)] *)
Fixpoint endswith (s p : string) : bool :=
  if decide (s = p) then true
  else match s with
       | EmptyString => false
       | String _ s' => endswith s' p
       end.

(** [needle in s] for two strings: substring search. *)
Fixpoint contains (needle s : string) : bool :=
  startswith s needle
  || match s with
     | EmptyString => false
     | String _ s' => contains needle s'
     end.

(** [s.replace(old, new)] for a non-empty [old]: occurrences are replaced
    from the left and do not overlap; [skip] counts the characters of a
    replaced occurrence that are still to be passed over. *)
Fixpoint replace_from (skip : nat) (old new s : string) : string :=
  match s with
  | EmptyString => EmptyString
  | String c s' =>
      match skip with
      | S k => replace_from k old new s'
      | O =>
          if startswith s old
          then new +:+ replace_from (String.length old - 1) old new s'
          else String c (replace_from O old new s')
      end
  end.

Definition replace (s old new : string) : string := replace_from O old new s.

(** [sep.join(parts)] *)
Definition join (sep : string) (parts : list string) : string :=
  String.concat sep parts.

(** [s.splitlines()]: the lines of [s] without their terminators.  A
    character that is no boundary joins the first line of what follows; a
    boundary closes an (empty) line, and CR LF is a single boundary, so a CR
    right before LF adds nothing to the lines of the rest. *)
Fixpoint splitlines (s : string) : list string :=
  match s with
  | EmptyString => []
  | String c s' =>
      if islinebreak c then
        if bool_decide (c = "013"%char) && startswith s' (String "010"%char EmptyString)
        then splitlines s'
        else EmptyString :: splitlines s'
      else
        match splitlines s' with
        | [] => [String c EmptyString]
        | l :: ls => String c l :: ls
        end
  end.

(** [l[i:j]] for [0 <= i] and [0 <= j], and [l[i:]]. *)
Definition slice {A} (l : list A) (i j : nat) : list A := take (j - i) (drop i l).

(** [x in l] for a list [l]: some element is equal to [x]. *)
Definition list_in (x : string) (l : list string) : bool := bool_decide (x ∈ l).

End Py.

Import Py.

(** Characters and one-character strings the script names. *)
Definition LF : ascii := "010"%char.
Definition newline : string := String LF EmptyString.
Definition dquote : string := String "034"%char EmptyString.
Definition squote : string := String "039"%char EmptyString.
Definition backslash : string := String "092"%char EmptyString.

(** ** Exceptions *)

Inductive exn : Type :=
  | ValueError
  | IndexError
  | OSError (msg : string).

(** [str(e)] as the script prints it. *)
Definition exn_str (e : exn) : string :=
  match e with
  | ValueError => "ValueError"
  | IndexError => "list index out of range"
  | OSError msg => msg
  end.

Inductive result (A : Type) : Type :=
  | Ok (a : A)
  | Raise (e : exn).
Arguments Ok {A} a.
Arguments Raise {A} e.

Definition bind {A B} (k : A → result B) (r : result A) : result B :=
  match r with
  | Ok a => k a
  | Raise e => Raise e
  end.

#[global] Instance result_bind : MBind result := @bind.
#[global] Instance result_ret : MRet result := @Ok.

(** [l[i]] raises [IndexError] out of range. *)
Definition getitem {A} (l : list A) (i : nat) : result A :=
  match l !! i with
  | Some x => Ok x
  | None => Raise IndexError
  end.

(** [l.index(x, start)]: the first position at or after [start] that holds
    [x]; [ValueError] when there is none. *)
Fixpoint find_from (x : string) (l : list string) (i : nat) : option nat :=
  match l with
  | [] => None
  | y :: l' => if decide (y = x) then Some i else find_from x l' (S i)
  end.

Definition list_index (l : list string) (x : string) (start : nat) : result nat :=
  match find_from x (drop start l) start with
  | Some i => Ok i
  | None => Raise ValueError
  end.

(** ** quote_value (lines 20-33) *)

Definition quote_value (val : string) : string :=
  let val := strip val in
  if (startswith val dquote && endswith val dquote)
     || (startswith val squote && endswith val squote)
  then val
  else if list_in (lower val) ["true"; "false"; "null"] then lower val
  else if contains ":" val || startswith val " " || endswith val " "
          || contains newline val || startswith val "#"
  then
    let safe := replace val dquote (backslash +:+ dquote) in
    dquote +:+ safe +:+ dquote
  else val.

(** ** FRONT_MATTER_KEY_RE (line 36) *)

(** The pattern the script compiles; [FRONT_MATTER_KEY_RE] below is what
    its [match] method computes: the groups [key] and [val], or no match. *)
Definition FRONT_MATTER_KEY_PATTERN : string :=
  "^(?P<key>[A-Za-z0-9_\-]+):\s*(?P<val>.*)$".

Definition is_key_char (c : ascii) : bool :=
  let n := N_of_ascii c in
  ((65 <=? n) && (n <=? 90)) || ((97 <=? n) && (n <=? 122))
  || ((48 <=? n) && (n <=? 57)) || (n =? 95) || (n =? 45).

(** The longest prefix of characters that satisfy [p], and the rest. *)
Fixpoint span (p : ascii → bool) (s : string) : string * string :=
  match s with
  | EmptyString => (EmptyString, EmptyString)
  | String c s' =>
      if p c then let '(a, b) := span p s' in (String c a, b)
      else (EmptyString, s)
  end.

(** [.] matches every character but LF. *)
Definition re_dot (c : ascii) : bool := negb (bool_decide (c = LF)).

(** The key is the longest run of key characters, since the colon that must
    follow is none.  [\s*] takes the longest run of white space and [.*] the
    longest run without LF; [$] then asks for the end of the string or for a
    last LF.  Giving back characters of [\s*] or [.*] cannot help: the
    position before [$] would only move left, in front of the same rest. *)
Definition FRONT_MATTER_KEY_RE (line : string) : option (string * string) :=
  let '(key, rest) := span is_key_char line in
  match key, rest with
  | String _ _, String c rest' =>
      if bool_decide (c = ":"%char) then
        let '(val, tail) := span re_dot (lstrip rest') in
        if bool_decide (tail = EmptyString) || bool_decide (tail = newline)
        then Some (key, val)
        else None
      else None
  | _, _ => None
  end.

(** ** normalize_front_matter_lines (lines 39-65) *)

(** The body of the loop: what one [line] appends to [out]. *)
Definition normalize_line (line : string) : string :=
  match FRONT_MATTER_KEY_RE line with
  | None => line
  | Some (key, val) =>
      if bool_decide (lower key = "comments") then
        let v := lower (strip val) in
        if list_in v ["true"; "false"] then key +:+ ": " +:+ v
        else key +:+ ": true"
      else if list_in (lower key) ["title"; "description"] || contains ":" val
      then
        let q := quote_value val in
        key +:+ ": " +:+ q
      else line
  end.

Definition normalize_front_matter_lines (lines : list string) : list string :=
  foldl (λ out line, out ++ [normalize_line line]) [] lines.

(** ** The notebook tree *)

(** A cell's [source] is one string or a list of strings, as the notebook
    format has it.  A file whose [source] is another JSON value is outside
    this type: on such a file the call of [lstrip] on line 98 raises an
    exception that nothing catches. *)
Inductive source_t : Type :=
  | SrcStr (s : string)
  | SrcList (l : list string).

(** A cell is a dict; the keys the script reads are fields, each absent
    ([None]) or present, and [cell_rest] holds the keys it never touches
    (metadata, outputs, ...).  [cell_id] is the key ['id']. *)
Record cell : Type := Cell {
  cell_type : option string;
  source : option source_t;
  cell_id : option string;
  cell_rest : list (string * string)
}.

Record notebook : Type := Notebook {
  cells : list cell;
  nb_rest : list (string * string)
}.

Definition set_cell_type (c : cell) (t : string) : cell :=
  Cell (Some t) (source c) (cell_id c) (cell_rest c).
Definition set_source (c : cell) (s : string) : cell :=
  Cell (cell_type c) (Some (SrcStr s)) (cell_id c) (cell_rest c).
Definition set_id (c : cell) (i : string) : cell :=
  Cell (cell_type c) (source c) (Some i) (cell_rest c).
Definition set_cells (nb : notebook) (cs : list cell) : notebook :=
  Notebook cs (nb_rest nb).

(** ** The world: files, entropy and what the script did *)

Inductive file : Type :=
  | NotebookFile (nb : notebook)   (* nbformat reads it *)
  | OtherFile (content : string).  (* nbformat.read raises on it *)

Inductive event : Type :=
  | Wrote (path : string) (nb : notebook)
  | Printed (line : string).

(** How [nbformat.write] fails on a path.  It opens the path in mode [w],
    which empties the file, and then writes the text: it raises either at
    the opening, the file being as it was, or later, and then [partial] is what
    had reached the file, an unfinished text that [nbformat.read] raises
    on. *)
Inductive write_failure : Type :=
  | BeforeOpen (e : exn)
  | AfterOpen (e : exn) (partial : string).

Definition failure_exn (f : write_failure) : exn :=
  match f with
  | BeforeOpen e => e
  | AfterOpen e _ => e
  end.

Record world : Type := World {
  fs : gmap string file;            (* the files by path *)
  write_errors : gmap string write_failure;
                                    (* the paths nbformat.write raises on *)
  urandom : nat → N;                (* the 16-byte draws of os.urandom *)
  drawn : nat;                      (* how many were taken *)
  events : list event               (* writes and printed lines, oldest first *)
}.

Definition nbformat_read (path : string) (w : world) : result notebook :=
  match fs w !! path with
  | Some (NotebookFile nb) => Ok nb
  | Some (OtherFile _) => Raise ValueError
  | None => Raise (OSError "No such file or directory")
  end.

(** [nbformat.write(nb, path)]: the world it leaves and the exception it
    raised, if any.  A write that fails after the opening leaves the
    unfinished text at the path. *)
Definition nbformat_write (nb : notebook) (path : string) (w : world)
    : world * option exn :=
  match write_errors w !! path with
  | None =>
      (World (<[path := NotebookFile nb]> (fs w)) (write_errors w)
         (urandom w) (drawn w) (events w ++ [Wrote path nb]), None)
  | Some (BeforeOpen e) => (w, Some e)
  | Some (AfterOpen e partial) =>
      (World (<[path := OtherFile partial]> (fs w)) (write_errors w)
         (urandom w) (drawn w) (events w), Some e)
  end.

Definition print (line : string) (w : world) : world :=
  World (fs w) (write_errors w) (urandom w) (drawn w) (events w ++ [Printed line]).

(** *** str(uuid.uuid4()) *)

(** [UUID(bytes=os.urandom(16), version=4).int]: the variant and version
    bits are forced on the 128 bits drawn. *)
Definition uuid4 (r : N) : N :=
  let i := r mod 2 ^ 128 in
  let i := N.ldiff i (N.shiftl 0xc000 48) in
  let i := N.lor i (N.shiftl 0x8000 48) in
  let i := N.ldiff i (N.shiftl 0xf000 64) in
  N.lor i (N.shiftl 4 76).

Definition hex_digit (d : N) : ascii :=
  default "0"%char (String.get (N.to_nat d) "0123456789abcdef").

(** The last [n] hexadecimal digits of [v]: ['%032x' % v] for [n = 32]. *)
Fixpoint hex (n : nat) (v : N) : string :=
  match n with
  | O => EmptyString
  | S k => hex k (v / 16) +:+ String (hex_digit (v mod 16)) EmptyString
  end.

(** [str(u)]: the five groups of [hex], with hyphens. *)
Definition uuid_str (i : N) : string :=
  let h := hex 32 i in
  String.substring 0 8 h +:+ "-" +:+ String.substring 8 4 h +:+ "-"
  +:+ String.substring 12 4 h +:+ "-" +:+ String.substring 16 4 h
  +:+ "-" +:+ String.substring 20 12 h.

Definition str_uuid4 (w : world) : string * world :=
  (uuid_str (uuid4 (urandom w (drawn w))),
   World (fs w) (write_errors w) (urandom w) (S (drawn w)) (events w)).

(** ** ensure_cell_ids (lines 68-71) *)

(** ['id' not in cell or not cell.get('id')] *)
Definition lacks_id (c : cell) : bool :=
  match cell_id c with
  | None => true
  | Some i => bool_decide (i = EmptyString)
  end.

Fixpoint ensure_ids (cs : list cell) (w : world) : list cell * world :=
  match cs with
  | [] => ([], w)
  | c :: cs' =>
      if lacks_id c then
        let '(u, w) := str_uuid4 w in
        let '(cs'', w) := ensure_ids cs' w in
        (set_id c u :: cs'', w)
      else
        let '(cs'', w) := ensure_ids cs' w in
        (c :: cs'', w)
  end.

Definition ensure_cell_ids (nb : notebook) (w : world) : notebook * world :=
  let '(cs, w) := ensure_ids (cells nb) w in
  (set_cells nb cs, w).

(** ** fix_notebook (lines 74-135) *)

(** Lines 84-87: the same loop, which also sets [changed]. *)
Fixpoint fix_ids (cs : list cell) (changed : bool) (w : world)
  : list cell * bool * world :=
  match cs with
  | [] => ([], changed, w)
  | c :: cs' =>
      if lacks_id c then
        let '(u, w) := str_uuid4 w in
        let '(cs'', changed, w) := fix_ids cs' true w in
        (set_id c u :: cs'', changed, w)
      else
        let '(cs'', changed, w) := fix_ids cs' changed w in
        (c :: cs'', changed, w)
  end.

(** Lines 92-96: the text of the first cell's source. *)
Definition src_text (first : cell) : string :=
  match default (SrcStr EmptyString) (source first) with
  | SrcList l => join EmptyString l
  | SrcStr s => s
  end.

(** Line 98: the test that guards the front-matter branch. *)
Definition detected (text : string) : bool :=
  startswith (lstrip text) "---" || list_in "title:" (slice (splitlines text) 0 3).

(** Lines 92-128, on the first cell: the cell and [changed] after them. *)
Definition fix_front_matter (first : cell) (changed : bool) : result (cell * bool) :=
  let text := src_text first in
  if detected text then
    (* Ensure markdown cell *)
    let '(first, changed) :=
      if bool_decide (cell_type first ≠ Some "markdown")
      then (set_cell_type first "markdown", true)
      else (first, changed) in
    let lines := splitlines text in
    opens ←
      (if bool_decide (lines ≠ [])
       then l0 ← getitem lines 0; Ok (bool_decide (strip l0 = "---"))
       else Ok false);
    if opens : bool then
      match list_index lines "---" 1 with
      | Ok end_ =>
          let fm_lines := slice lines 1 end_ in
          let new_fm := normalize_front_matter_lines fm_lines in
          let new_lines := ["---"] ++ new_fm ++ ["---"] ++ drop (end_ + 1) lines in
          Ok (set_source first
                (join newline new_lines
                 +:+ (if endswith text newline then newline else EmptyString)),
              true)
      | Raise ValueError =>
          (* Try best-effort: normalize all lines *)
          let new_fm := normalize_front_matter_lines lines in
          Ok (set_source first (join newline new_fm), true)
      | Raise e => Raise e
      end
    else
      let head := take 6 lines in
      let tail := drop 6 lines in
      let new_head := normalize_front_matter_lines head in
      Ok (set_source first (join newline (new_head ++ tail)), true)
  else Ok (first, changed).

(** Lines 81-128: the edits of the tree in memory; the result is the tree,
    [changed] and the world (entropy was drawn for the new ids). *)
Definition fix_tree (nb : notebook) (w : world) : result (notebook * bool * world) :=
  let changed := false in
  let '(cs, changed, w) := fix_ids (cells nb) changed w in
  if bool_decide (cs ≠ []) then
    first ← getitem cs 0;
    '(first, changed) ← fix_front_matter first changed;
    Ok (set_cells nb (<[0%nat := first]> cs), changed, w)
  else Ok (set_cells nb cs, changed, w).

Definition fix_notebook (path : string) (w : world) : result world :=
  match nbformat_read path w with
  | Raise _ => Ok w    (* If nbformat can't read it, skip *)
  | Ok nb =>
      '(nb, changed, w) ← fix_tree nb w;
      if changed : bool then
        match nbformat_write nb path w with
        | (w, None) => Ok (print ("Normalized: " +:+ path) w)
        | (w, Some e) =>
            Ok (print ("Failed to write " +:+ path +:+ ": " +:+ exn_str e) w)
        end
      else Ok w
  end.

(** Lines 140-141 of [main]: the loop over the notebooks [glob] found. *)
Fixpoint main_loop (notebooks : list string) (w : world) : result world :=
  match notebooks with
  | [] => Ok w
  | nb :: rest => w ← fix_notebook nb w; main_loop rest w
  end.

(** ** Notions the statements use *)

(** Every character of [s] satisfies [p]. *)
Fixpoint all_chars (p : ascii → bool) (s : string) : bool :=
  match s with
  | EmptyString => true
  | String c s' => p c && all_chars p s'
  end.

(** The character [c] occurs in [s]. *)
Fixpoint has (c : ascii) (s : string) : bool :=
  match s with
  | EmptyString => false
  | String d s' => bool_decide (d = c) || has c s'
  end.

(** No character of [s] is a line boundary: [s] is a single line. *)
Definition one_line (s : string) : bool :=
  all_chars (λ c, negb (islinebreak c)) s.

Definition starts_with (v p : string) : Prop := ∃ t, v = p +:+ t.
Definition ends_with (v p : string) : Prop := ∃ t, v = t +:+ p.

(** [v] is [raw] without the white space of its two ends. *)
Definition trimmed_of (raw v : string) : Prop :=
  (∃ a b, raw = a +:+ v +:+ b ∧ all_chars isspace a = true
          ∧ all_chars isspace b = true)
  ∧ (∀ c t, v = String c t → isspace c = false)
  ∧ (∀ c t, v = t +:+ String c EmptyString → isspace c = false).

(** Every double quote of [v] with a backslash in front of it. *)
Fixpoint escape_dquotes (v : string) : string :=
  match v with
  | EmptyString => EmptyString
  | String c v' =>
      (if bool_decide (c = "034"%char) then backslash +:+ dquote
       else String c EmptyString) +:+ escape_dquotes v'
  end.

(** The lines, each followed by a newline. *)
Fixpoint unlines (lines : list string) : string :=
  match lines with
  | [] => EmptyString
  | l :: ls => l +:+ newline +:+ unlines ls
  end.

(** The cell after line 101: a markdown cell. *)
Definition retag (c : cell) : cell :=
  if bool_decide (cell_type c ≠ Some "markdown")
  then set_cell_type c "markdown" else c.

(** Line 106: the first line, stripped, is the delimiter. *)
Definition opens_block (lines : list string) : bool :=
  match lines with
  | l0 :: _ => bool_decide (strip l0 = "---")
  | [] => false
  end.

(** Line 108: the position of the closing delimiter, if there is one. *)
Definition closing (lines : list string) : option nat :=
  find_from "---" (drop 1 lines) 1.

(** The three ways lines 111-128 put the source together again. *)
Definition closed_lines (lines : list string) (end_ : nat) : list string :=
  ["---"] ++ normalize_front_matter_lines (slice lines 1 end_)
  ++ ["---"] ++ drop (end_ + 1) lines.

Definition closed_source (text : string) (lines : list string) (end_ : nat) : string :=
  join newline (closed_lines lines end_)
  +:+ (if endswith text newline then newline else EmptyString).

Definition unclosed_source (lines : list string) : string :=
  join newline (normalize_front_matter_lines lines).

Definition headed_lines (lines : list string) : list string :=
  normalize_front_matter_lines (take 6 lines) ++ drop 6 lines.

Definition headed_source (lines : list string) : string :=
  join newline (headed_lines lines).

(** The source lines 104-128 assign when front matter was detected. *)
Definition rewritten (text : string) : string :=
  let lines := splitlines text in
  if opens_block lines then
    match closing lines with
    | Some end_ => closed_source text lines end_
    | None => unclosed_source lines
    end
  else headed_source lines.

(** What lines 92-128 make of the first cell. *)
Definition front (first : cell) : cell :=
  if detected (src_text first)
  then set_source (retag first) (rewritten (src_text first))
  else first.

(** The cells without a usable [id]. *)
Fixpoint count_lacking (cs : list cell) : nat :=
  match cs with
  | [] => 0
  | c :: cs' => (if lacks_id c then 1 else 0) + count_lacking cs'
  end.

(** The token [str(uuid.uuid4())] returns at the [k]-th draw after [w]. *)
Definition token (w : world) (k : nat) : string :=
  uuid_str (uuid4 (urandom w (drawn w + k)%nat)).

(** The world after [k] more draws. *)
Definition after_draws (w : world) (k : nat) : world :=
  World (fs w) (write_errors w) (urandom w) (drawn w + k) (events w).

(** [changed] at line 130. *)
Definition flagged (nb : notebook) : bool :=
  existsb lacks_id (cells nb)
  || match cells nb with
     | c :: _ => detected (src_text c)
     | [] => false
     end.

(** The files a write that raised leaves behind. *)
Definition files_after (path : string) (f : write_failure)
    (files : gmap string file) : gmap string file :=
  match f with
  | BeforeOpen _ => files
  | AfterOpen _ partial => <[path := OtherFile partial]> files
  end.

(** The first cell after the loop, when there is one. *)
Definition with_front (cs : list cell) : list cell :=
  match cs with
  | c :: rest => front c :: rest
  | [] => []
  end.

Definition first_detected (cs : list cell) : bool :=
  match cs with
  | c :: _ => detected (src_text c)
  | [] => false
  end.

(** The [id] of the cell is a non-empty string. *)
Definition has_id (c : cell) : Prop := ∃ t, cell_id c = Some t ∧ t ≠ EmptyString.

(** The scenario of the specification: the source of the first cell before
    and after the script ran. *)
Definition scenario_source : string :=
  join newline ["---"; "title: Hello: World"; "comments: YES"; "---"; "body"].

Definition scenario_result : string :=
  join newline ["---"; "title: " +:+ dquote +:+ "Hello: World" +:+ dquote;
                "comments: true"; "---"; "body"].

(** ** Sample notebooks and worlds *)

(** A world with one file and no entropy to speak of. *)
Definition world_with (path : string) (f : file) : world :=
  World {[ path := f ]} ∅ (λ _, 0) 0 [].

(** The scenario: a code cell with front matter, and two more cells. *)
Definition scenario_notebook : notebook :=
  Notebook [Cell (Some "code") (Some (SrcStr scenario_source)) None [];
            Cell (Some "code") (Some (SrcStr "print(1)")) (Some "") [];
            Cell (Some "markdown") (Some (SrcList ["# Notes"])) (Some "c3") []] [].

(** A notebook the script has nothing to do on: ids everywhere, a markdown
    first cell and front matter that is normalized already. *)
Definition settled_notebook : notebook :=
  Notebook [Cell (Some "markdown")
              (Some (SrcStr (join newline ["---"; "title: Post"; "comments: true"; "---"; "text"])))
              (Some "c1") []] [].

(** A notebook whose first cell starts with a title line and no delimiter. *)
Definition titled_notebook : notebook :=
  Notebook [Cell (Some "code") (Some (SrcStr "title: My Post")) (Some "c1") []] [].

(** A notebook without front matter. *)
Definition plain_notebook : notebook :=
  Notebook [Cell (Some "code") (Some (SrcStr "print(1)")) (Some "c1") []] [].

(** The lines [join] and [splitlines] give back: a last empty line is lost. *)
Definition trim_last (lines : list string) : list string :=
  if bool_decide (last lines = Some EmptyString) then removelast lines else lines.

(** A notebook whose front matter is opened and never closed. *)
Definition unclosed_notebook : notebook :=
  Notebook [Cell (Some "markdown") (Some (SrcStr (join newline ["---"; "title: X"])))
              (Some "c1") []] [].

(** A code cell whose front matter is opened, never closed, and ends with a
    newline. *)
Definition dangling_cell : cell :=
  Cell (Some "code") (Some (SrcStr (unlines ["---"; "title: X"]))) None [].

(** The texts a second run leaves alone: the text does not start with
    [---] after its leading white space, or the block is closed, or the last
    line is not empty. *)
Definition settles (text : string) : Prop :=
  startswith (lstrip text) "---" = false
  ∨ (opens_block (splitlines text) = true ∧ closing (splitlines text) ≠ None)
  ∨ last (splitlines text) ≠ Some EmptyString.

(** An open block followed by an empty line, and what one and two runs
    make of it. *)
Definition trailing_notebook : notebook :=
  Notebook [Cell (Some "markdown")
              (Some (SrcStr (join newline ["---"; "title: X"; ""; ""])))
              (Some "c1") []] [].

Definition trailing_once : notebook :=
  Notebook [Cell (Some "markdown")
              (Some (SrcStr (join newline ["---"; "title: X"; ""])))
              (Some "c1") []] [].

Definition trailing_twice : notebook :=
  Notebook [Cell (Some "markdown")
              (Some (SrcStr (join newline ["---"; "title: X"])))
              (Some "c1") []] [].

(** A cell whose opening line has white space around the delimiter, given
    as a list of lines. *)
Definition spaced_cell : cell :=
  Cell (Some "markdown")
    (Some (SrcList [" --- " +:+ newline; "title: a: b" +:+ newline;
                    "---" +:+ newline; "text" +:+ newline]))
    (Some "c1") [].

(** The characters of a token: the digits, [a] to [f], and the hyphen. *)
Definition is_token_char (c : ascii) : bool :=
  let n := N_of_ascii c in
  ((48 <=? n) && (n <=? 57)) || ((97 <=? n) && (n <=? 102)) || (n =? 45).

(** A notebook whose only cell has an empty id, and what the script makes
    of it when the draw is zero. *)
Definition bare_notebook : notebook :=
  Notebook [Cell (Some "code") (Some (SrcStr "x = 1")) (Some "") []] [].

Definition bare_fixed : notebook :=
  Notebook [Cell (Some "code") (Some (SrcStr "x = 1"))
              (Some "00000000-0000-4000-8000-000000000000") []] [].

(** The first line that holds more than white space, without the white
    space in front of it: where [lstrip] takes a text to. *)
Fixpoint lead (lines : list string) : string :=
  match lines with
  | [] => EmptyString
  | l :: ls => if all_chars isspace l then lead ls else lstrip l
  end.

(** A notebook detected by a line [title:] alone, and what a run makes of
    it: the line gets a space after the colon. *)
Definition title_notebook : notebook :=
  Notebook [Cell (Some "code") (Some (SrcStr (join newline ["title:"; "x = 1"])))
              (Some "c1") []] [].

Definition title_fixed : notebook :=
  Notebook [Cell (Some "markdown") (Some (SrcStr (join newline ["title: "; "x = 1"])))
              (Some "c1") []] [].

(** A cell whose front matter comes after an empty line, with a seventh
    line that holds a key. *)
Definition blank_led_cell : cell :=
  Cell (Some "code")
    (Some (SrcStr (join newline [""; "---"; "layout: post"; "title: a: b";
                                 "comments: yes"; "---"; "description: c: d"])))
    (Some "c1") [].

(** A notebook whose first cell has no [source] key. *)
Definition sourceless_notebook : notebook :=
  Notebook [Cell (Some "code") None (Some "c1") []] [].

(** ** The search of the backtracking matcher

    Python's matcher tries, for each greedy quantifier in turn, its longest
    run first and then gives characters back one at a time.  [splits p s]
    lists in that order the ways to cut a run of [p] off [s], and
    [match_search] lists the matches of the pattern in the order the matcher
    would find them: the first one is what [match] reports. *)

Fixpoint splits (p : ascii → bool) (s : string) : list (string * string) :=
  match s with
  | EmptyString => [(EmptyString, EmptyString)]
  | String c s' =>
      (if p c then (λ ab, (String c ab.1, ab.2)) <$> splits p s' else [])
      ++ [(EmptyString, s)]
  end.

(** [$]: at the end of the string, or before a newline that ends it. *)
Definition at_end (s : string) : bool :=
  bool_decide (s = EmptyString) || bool_decide (s = newline).

Definition match_search (line : string) : list (string * string) :=
  kr ← splits is_key_char line;
  if bool_decide (kr.1 = EmptyString) then [] else
  match kr.2 with
  | String c r2 =>
      if bool_decide (c = ":"%char) then
        wr ← splits isspace r2;
        vr ← splits re_dot wr.2;
        if at_end vr.2 then [(kr.1, vr.1)] else []
      else []
  | EmptyString => []
  end.

(** ** The loop of str.splitlines

    CPython's loop: find the end of the line, pass over the boundary (CR LF
    counts as one), add the line, go on with what follows.  Every round
    takes at least one character, so [fuel] rounds are enough for a text of
    [fuel] characters. *)

Definition after_break (rest : string) : string :=
  match rest with
  | EmptyString => EmptyString
  | String c r =>
      if bool_decide (c = "013"%char) && startswith r newline
      then match r with String _ r' => r' | EmptyString => EmptyString end
      else r
  end.

Fixpoint splitlines_loop (fuel : nat) (s : string) : list string :=
  match fuel, s with
  | O, _ => []
  | _, EmptyString => []
  | S fuel', _ =>
      let '(line, rest) := span (λ c, negb (islinebreak c)) s in
      line :: splitlines_loop fuel' (after_break rest)
  end.
(** * Properties *)

(** ** The loop of normalize_front_matter_lines *)

Lemma normalize_loop_app (out lines : list string) :
  foldl (λ out line, out ++ [normalize_line line]) out lines
  = out ++ map normalize_line lines.
Proof.
  revert out; induction lines as [|l ls IH]; intros out; simpl.
  - by rewrite app_nil_r.
  - rewrite IH, <- app_assoc. reflexivity.
Qed.

Lemma normalize_front_matter_lines_map (lines : list string) :
  normalize_front_matter_lines lines = map normalize_line lines.
Proof. unfold normalize_front_matter_lines. by rewrite normalize_loop_app. Qed.

Lemma normalize_front_matter_lines_lookup (lines : list string) (i : nat) :
  normalize_front_matter_lines lines !! i = normalize_line <$> lines !! i.
Proof. rewrite normalize_front_matter_lines_map. apply list_lookup_fmap. Qed.

Lemma list_in_true (x : string) (l : list string) : list_in x l = true ↔ x ∈ l.
Proof. unfold list_in. apply bool_decide_eq_true. Qed.

(** Claim C3 (boolean coercion): a line of the front matter that matches
    the key:value pattern with a key equal to [comments] in any casing is
    emitted as the key, a colon, a space and [true] or [false] in lower
    case.  The value is [false] exactly when the input value, stripped and
    lowercased, is [false]; it is [true] for [true] in any casing and for
    every other value, such as [yes]. *)
Theorem comments_coerced_to_lowercase_boolean
    (lines : list string) (i : nat) (line key val : string) :
  lines !! i = Some line →
  FRONT_MATTER_KEY_RE line = Some (key, val) →
  lower key = "comments" →
  normalize_front_matter_lines lines !! i
  = Some (key +:+ ": "
          +:+ (if bool_decide (lower (strip val) = "false") then "false" else "true")).
Proof.
  intros Hi Hm Hk.
  rewrite normalize_front_matter_lines_lookup, Hi. simpl. f_equal.
  unfold normalize_line. rewrite Hm.
  rewrite bool_decide_eq_true_2 by done.
  destruct (list_in (lower (strip val)) ["true"; "false"]) eqn:Hin.
  - apply list_in_true in Hin.
    apply elem_of_cons in Hin as [->| Hin]; [done|].
    apply elem_of_cons in Hin as [->| Hin]; [done|].
    by apply elem_of_nil in Hin.
  - case_bool_decide as Hf; [|done].
    rewrite Hf in Hin. vm_compute in Hin. done.
Qed.

(** C3 at the line [Comments:  FALSE ]. *)
Lemma comments_coerced_witness :
  normalize_front_matter_lines ["title: a"; "Comments:  FALSE "] !! 1%nat
  = Some "Comments: false".
Proof.
  exact (comments_coerced_to_lowercase_boolean
           ["title: a"; "Comments:  FALSE "] 1 "Comments:  FALSE " "Comments" "FALSE "
           eq_refl eq_refl eq_refl).
Defined.

(** ** Strings *)

#[local] Arguments String.append : simpl nomatch.
#[local] Arguments isspace : simpl never.
#[local] Arguments islinebreak : simpl never.
#[local] Arguments is_key_char : simpl never.
#[local] Arguments lower_char : simpl never.

Lemma append_nil_r (s : string) : s +:+ "" = s.
Proof. induction s as [|c s IH]; simpl; [done|by rewrite IH]. Qed.

Lemma append_assoc (a b c : string) : (a +:+ b) +:+ c = a +:+ b +:+ c.
Proof. induction a as [|x a IH]; simpl; [done|by rewrite IH]. Qed.

Lemma append_inv_head (a b c : string) : a +:+ b = a +:+ c → b = c.
Proof. induction a as [|x a IH]; simpl; [done|]. intros [= H]. auto. Qed.

Lemma startswith_nil (s : string) : startswith s "" = true.
Proof. by destruct s. Qed.

Lemma startswith_cons (c d : ascii) (s p : string) :
  startswith (String c s) (String d p) = bool_decide (d = c) && startswith s p.
Proof.
  unfold startswith; simpl. destruct (ascii_dec d c) as [->|Hne].
  - by rewrite bool_decide_eq_true_2.
  - by rewrite bool_decide_eq_false_2.
Qed.

Lemma startswith_true (s p : string) : startswith s p = true ↔ starts_with s p.
Proof.
  revert s; induction p as [|d p IH]; intros s.
  - rewrite startswith_nil. split; [|done]. intros _. by exists s.
  - destruct s as [|c s].
    + split; [done|]. by intros [t Ht].
    + rewrite startswith_cons, andb_true_iff, bool_decide_eq_true, IH.
      split.
      * intros [-> [t ->]]. by exists t.
      * intros [t [= -> ->]]. split; [done|]. by exists t.
Qed.

Lemma startswith_app (p t : string) : startswith (p +:+ t) p = true.
Proof. apply startswith_true. by exists t. Qed.

Lemma endswith_true (s p : string) : endswith s p = true ↔ ends_with s p.
Proof.
  induction s as [|c s IH]; simpl.
  - destruct (decide ("" = p)) as [<-|Hne].
    + split; [|done]. intros _. by exists "".
    + split; [done|]. intros [t Ht]. destruct t; simpl in Ht; congruence.
  - destruct (decide (String c s = p)) as [<-|Hne].
    + split; [|done]. intros _. by exists "".
    + rewrite IH. split.
      * intros [t ->]. exists (String c t). done.
      * intros [t Ht]. destruct t as [|d t]; simpl in Ht; [congruence|].
        injection Ht as -> ->. by exists t.
Qed.

Lemma endswith_app (t p : string) : endswith (t +:+ p) p = true.
Proof. apply endswith_true. by exists t. Qed.

Lemma has_app (c : ascii) (a b : string) : has c (a +:+ b) = has c a || has c b.
Proof. induction a as [|x a IH]; simpl; [done|]. by rewrite IH, orb_assoc. Qed.

Lemma has_true (c : ascii) (s : string) :
  has c s = true ↔ ∃ a b, s = a +:+ String c b.
Proof.
  induction s as [|d s IH]; simpl.
  - split; [done|]. intros (a & b & H). destruct a; simpl in H; congruence.
  - rewrite orb_true_iff, bool_decide_eq_true, IH. split.
    + intros [->|(a & b & ->)]; [by exists "", s|by exists (String d a), b].
    + intros (a & b & H). destruct a as [|x a]; simpl in H.
      * injection H as -> ->. by left.
      * injection H as -> ->. right. by exists a, b.
Qed.

Lemma contains_char (c : ascii) (s : string) :
  contains (String c "") s = has c s.
Proof.
  induction s as [|d s IH]; [done|].
  cbn [contains has]. rewrite IH, startswith_cons, startswith_nil, andb_true_r.
  f_equal. apply bool_decide_ext. split; congruence.
Qed.

Lemma replace_escape (s : string) :
  replace s dquote (backslash +:+ dquote) = escape_dquotes s.
Proof.
  unfold replace. induction s as [|c s IH]; [done|].
  cbn [replace_from escape_dquotes]. unfold dquote at 1.
  rewrite startswith_cons, startswith_nil, andb_true_r.
  change (String.length dquote - 1)%nat with 0%nat.
  rewrite (bool_decide_ext ("034"%char = c) (c = "034"%char)) by (split; congruence).
  case_bool_decide; rewrite IH; done.
Qed.

(** ** strip *)

Lemma lstrip_split (s : string) :
  ∃ a, s = a +:+ lstrip s ∧ all_chars isspace a = true.
Proof.
  induction s as [|c s (a & Ha & Hs)]; simpl.
  - by exists "".
  - destruct (isspace c) eqn:Hc.
    + exists (String c a). simpl. rewrite Hc, Hs, <- Ha. done.
    + by exists "".
Qed.

Lemma lstrip_head (s : string) (c : ascii) (t : string) :
  lstrip s = String c t → isspace c = false.
Proof.
  induction s as [|d s IH]; simpl; [done|].
  destruct (isspace d) eqn:Hd; [done|]. by intros [= <- _].
Qed.

Lemma lstrip_id (v : string) :
  (∀ c t, v = String c t → isspace c = false) → lstrip v = v.
Proof. destruct v as [|c v]; [done|]. intros H. simpl. by rewrite (H c v). Qed.

Lemma rstrip_nil (s : string) : rstrip s = "" ↔ all_chars isspace s = true.
Proof.
  induction s as [|c s IH]; simpl; [done|].
  destruct (rstrip s) eqn:Hr.
  - destruct IH as [IH _]. rewrite IH by done.
    destruct (isspace c); simpl; split; done.
  - split; [done|]. intros [_ H]%andb_true_iff. apply IH in H. done.
Qed.

Lemma rstrip_split (s : string) :
  ∃ b, s = rstrip s +:+ b ∧ all_chars isspace b = true.
Proof.
  induction s as [|c s (b & Hb & Hs)]; simpl.
  - by exists "".
  - destruct (rstrip s) eqn:Hr.
    + destruct (isspace c) eqn:Hc.
      * exists (String c s). split; [done|]. simpl. rewrite Hc. simpl.
        by apply rstrip_nil.
      * exists b. simpl in Hb. by subst b.
    + exists b. simpl in *. by rewrite <- Hb.
Qed.

Lemma rstrip_last (s t : string) (c : ascii) :
  rstrip s = t +:+ String c "" → isspace c = false.
Proof.
  revert t; induction s as [|d s IH]; intros t; simpl.
  - destruct t; done.
  - destruct (rstrip s) eqn:Hr.
    + destruct (isspace d) eqn:Hd.
      * destruct t; done.
      * destruct t as [|x t]; simpl; [by intros [= <-]|].
        intros [= _ H]. destruct t; done.
    + destruct t as [|x t]; simpl; [done|].
      intros [= _ H]. by apply (IH t).
Qed.

Lemma rstrip_head (s : string) (c : ascii) (t : string) :
  rstrip s = String c t → ∃ t', s = String c t'.
Proof.
  destruct s as [|d s]; simpl; [done|].
  destruct (rstrip s); [destruct (isspace d)|]; intros [=]; subst; eauto.
Qed.

Lemma rstrip_id (v : string) :
  (∀ c t, v = t +:+ String c "" → isspace c = false) → rstrip v = v.
Proof.
  induction v as [|d v IH]; intros H; simpl; [done|].
  rewrite IH.
  - destruct v; [|done]. by rewrite (H d "").
  - intros c t ->. apply (H c (String d t)). done.
Qed.

Lemma strip_trimmed (raw : string) : trimmed_of raw (strip raw).
Proof.
  unfold strip. repeat split.
  - destruct (lstrip_split raw) as (a & Ha & Hsa).
    destruct (rstrip_split (lstrip raw)) as (b & Hb & Hsb).
    exists a, b. by rewrite <- Hb.
  - intros c t H. apply rstrip_head in H as [t' H].
    by apply lstrip_head in H.
  - intros c t H. by apply rstrip_last in H.
Qed.

Lemma strip_id (v : string) :
  (∀ c t, v = String c t → isspace c = false) →
  (∀ c t, v = t +:+ String c "" → isspace c = false) →
  strip v = v.
Proof. intros H1 H2. unfold strip. rewrite (lstrip_id v H1). by apply rstrip_id. Qed.

Lemma strip_strip (s : string) : strip (strip s) = strip s.
Proof. destruct (strip_trimmed s) as (_ & H1 & H2). by apply strip_id. Qed.

(** ** quote_value *)

(** Claim C4 (value quoting rule): [quote_value] first strips the white
    space around the value.  A stripped value that starts and ends with a
    double quote, or starts and ends with a single quote, is returned as it
    is.  Otherwise a value equal to [true], [false] or [null] in any casing is
    returned in lower case, without quotes.  Otherwise a value with a colon
    or a newline in it, or a space at an end, or a [#] in front, is returned
    between double quotes with a backslash before each double quote it
    holds.  Every other value is returned stripped and without quotes. *)
Theorem quote_value_rule (raw : string) :
  let v := strip raw in
  let wrapped :=
    (starts_with v dquote ∧ ends_with v dquote)
    ∨ (starts_with v squote ∧ ends_with v squote) in
  let literal := lower v ∈ ["true"; "false"; "null"] in
  let special :=
    has ":"%char v = true ∨ starts_with v " " ∨ ends_with v " "
    ∨ has LF v = true ∨ starts_with v "#" in
  trimmed_of raw v
  ∧ (wrapped → quote_value raw = v)
  ∧ (¬ wrapped → literal → quote_value raw = lower v)
  ∧ (¬ wrapped → ¬ literal → special →
     quote_value raw = dquote +:+ escape_dquotes v +:+ dquote)
  ∧ (¬ wrapped → ¬ literal → ¬ special → quote_value raw = v).
Proof.
  intros v wrapped literal special.
  split; [apply strip_trimmed|].
  unfold quote_value. fold v.
  assert (Hw : (startswith v dquote && endswith v dquote
                || startswith v squote && endswith v squote) = true ↔ wrapped).
  { unfold wrapped.
    rewrite orb_true_iff, !andb_true_iff, !startswith_true, !endswith_true. done. }
  assert (Hl : list_in (lower v) ["true"; "false"; "null"] = true ↔ literal)
    by apply list_in_true.
  assert (Hs : (contains ":" v || startswith v " " || endswith v " "
                || contains newline v || startswith v "#") = true ↔ special).
  { unfold special, newline.
    rewrite !orb_true_iff, !startswith_true, !endswith_true, !contains_char.
    tauto. }
  rewrite replace_escape.
  destruct (startswith v dquote && endswith v dquote
            || startswith v squote && endswith v squote);
    destruct (list_in (lower v) ["true"; "false"; "null"]);
    destruct (contains ":" v || startswith v " " || endswith v " "
              || contains newline v || startswith v "#");
    (repeat split; intros; try reflexivity; exfalso; intuition discriminate).
Qed.

(** ** The edits of the tree *)

Lemma fix_front_matter_eq (first : cell) (changed : bool) :
  fix_front_matter first changed
  = Ok (front first, detected (src_text first) || changed).
Proof.
  unfold fix_front_matter, front, rewritten.
  destruct (detected (src_text first)); [|done].
  set (lines := splitlines (src_text first)).
  destruct lines as [|l0 ls] eqn:Hl.
  - unfold retag. simpl. case_bool_decide; reflexivity.
  - unfold retag, closing, opens_block, list_index, getitem.
    change (drop 1 (l0 :: ls)) with ls.
    change ((l0 :: ls) !! 0%nat) with (Some l0).
    rewrite (bool_decide_eq_true_2 (l0 :: ls ≠ [])) by done.
    unfold mbind, result_bind, bind.
    destruct (bool_decide (strip l0 = "---")); destruct (find_from "---" ls 1);
      case_bool_decide; reflexivity.
Qed.

Lemma ensure_ids_world (cs : list cell) (w : world) :
  (ensure_ids cs w).2 = after_draws w (count_lacking cs).
Proof.
  revert w; induction cs as [|c cs IH]; intros w; simpl.
  - destruct w. unfold after_draws. simpl. by rewrite Nat.add_0_r.
  - destruct (lacks_id c).
    + unfold str_uuid4. set (w1 := World _ _ _ _ _). specialize (IH w1).
      destruct (ensure_ids cs w1) as [cs' w2]. simpl in *. rewrite IH.
      unfold after_draws, w1. simpl. f_equal. lia.
    + specialize (IH w). destruct (ensure_ids cs w) as [cs' w2]. done.
Qed.

Lemma ensure_ids_lookup (cs : list cell) (w : world) (i : nat) (c : cell) :
  cs !! i = Some c →
  (ensure_ids cs w).1 !! i
  = Some (if lacks_id c then set_id c (token w (count_lacking (take i cs))) else c).
Proof.
  revert w i; induction cs as [|d cs IH]; intros w i Hi; [done|].
  destruct i as [|i]; simpl in Hi.
  - injection Hi as ->. simpl. destruct (lacks_id c) eqn:Hc.
    + unfold str_uuid4. destruct (ensure_ids cs _) as [cs' w2]. simpl.
      unfold token. by rewrite Nat.add_0_r.
    + destruct (ensure_ids cs w) as [cs' w2]. done.
  - simpl. destruct (lacks_id d) eqn:Hd.
    + unfold str_uuid4. set (w1 := World _ _ _ _ _). specialize (IH w1 i Hi).
      destruct (ensure_ids cs w1) as [cs' w2]. simpl in *. rewrite IH.
      unfold token, w1. simpl. by rewrite Nat.add_succ_r.
    + specialize (IH w i Hi). destruct (ensure_ids cs w) as [cs' w2]. done.
Qed.

Lemma ensure_ids_length (cs : list cell) (w : world) :
  length (ensure_ids cs w).1 = length cs.
Proof.
  revert w; induction cs as [|c cs IH]; intros w; simpl; [done|].
  destruct (lacks_id c).
  - unfold str_uuid4. set (w1 := World _ _ _ _ _). specialize (IH w1).
    destruct (ensure_ids cs w1). simpl in *. by rewrite IH.
  - specialize (IH w). destruct (ensure_ids cs w). simpl in *. by rewrite IH.
Qed.

(** The loop of lines 84-87 is [ensure_cell_ids] with the flag. *)
Lemma fix_ids_ensure (cs : list cell) (changed : bool) (w : world) :
  fix_ids cs changed w
  = ((ensure_ids cs w).1, existsb lacks_id cs || changed, (ensure_ids cs w).2).
Proof.
  revert changed w; induction cs as [|c cs IH]; intros changed w; simpl; [done|].
  destruct (lacks_id c).
  - unfold str_uuid4. rewrite IH.
    destruct (ensure_ids cs _). simpl. by rewrite orb_true_r.
  - rewrite IH. destruct (ensure_ids cs w). done.
Qed.

Lemma count_lacking_0 (cs : list cell) :
  count_lacking cs = 0%nat ↔ existsb lacks_id cs = false.
Proof.
  induction cs as [|c cs IH]; simpl; [done|].
  destruct (lacks_id c); simpl; [split; done|done].
Qed.

Lemma ensure_ids_none (cs : list cell) (w : world) :
  existsb lacks_id cs = false → ensure_ids cs w = (cs, w).
Proof.
  revert w; induction cs as [|c cs IH]; intros w; simpl; [done|].
  destruct (lacks_id c); simpl; [done|]. intros H. by rewrite IH.
Qed.

Lemma fix_tree_eq (nb : notebook) (w : world) :
  fix_tree nb w
  = Ok (set_cells nb (with_front (ensure_ids (cells nb) w).1),
        first_detected (ensure_ids (cells nb) w).1 || existsb lacks_id (cells nb),
        (ensure_ids (cells nb) w).2).
Proof.
  unfold fix_tree. rewrite fix_ids_ensure.
  destruct (ensure_ids (cells nb) w) as [cs w1]. simpl.
  destruct cs as [|c cs]; simpl.
  - by rewrite orb_false_r.
  - unfold getitem. simpl. unfold mbind, result_bind, bind.
    rewrite fix_front_matter_eq. by rewrite orb_false_r.
Qed.

(** ** Cell ids *)

Lemma uuid_str_nonempty (i : N) : uuid_str i ≠ "".
Proof.
  unfold uuid_str. destruct (String.substring 0 8 (hex 32 i)); simpl; done.
Qed.

Lemma lacks_id_false (c : cell) : lacks_id c = false ↔ has_id c.
Proof.
  unfold lacks_id, has_id. destruct (cell_id c) as [t|].
  - rewrite bool_decide_eq_false. split.
    + intros H. by exists t.
    + by intros (t' & [= <-] & H).
  - split; [done|]. by intros (t & H & _).
Qed.

Lemma front_id (c : cell) : cell_id (front c) = cell_id c.
Proof.
  unfold front, retag. destruct (detected _); [|done].
  by case_bool_decide.
Qed.

Lemma front_rest (c : cell) : cell_rest (front c) = cell_rest c.
Proof.
  unfold front, retag. destruct (detected _); [|done].
  by case_bool_decide.
Qed.

Lemma with_front_length (cs : list cell) : length (with_front cs) = length cs.
Proof. by destruct cs. Qed.

(** What [fix_tree] makes of the cell at position [i]. *)
Lemma fix_tree_lookup (nb nb' : notebook) (w w' : world) (changed : bool)
    (i : nat) (c : cell) :
  fix_tree nb w = Ok (nb', changed, w') →
  cells nb !! i = Some c →
  let c1 :=
    if lacks_id c then set_id c (token w (count_lacking (take i (cells nb))))
    else c in
  cells nb' !! i = Some (if decide (i = 0%nat) then front c1 else c1).
Proof.
  rewrite fix_tree_eq. intros [= <- _ _] Hi c1. simpl.
  pose proof (ensure_ids_lookup (cells nb) w i c Hi) as Hl. fold c1 in Hl.
  destruct (ensure_ids (cells nb) w).1 as [|d ds]; [done|].
  destruct i as [|i]; simpl in *; [|done]. by injection Hl as ->.
Qed.

Lemma fix_tree_ids (nb nb' : notebook) (w w' : world) (changed : bool) (c' : cell) :
  fix_tree nb w = Ok (nb', changed, w') → c' ∈ cells nb' → has_id c'.
Proof.
  intros E Hin. apply list_elem_of_lookup in Hin as [i Hi].
  assert (Hlen : length (cells nb') = length (cells nb)).
  { rewrite fix_tree_eq in E. injection E as <- _ _. simpl.
    by rewrite with_front_length, ensure_ids_length. }
  destruct (cells nb !! i) as [c|] eqn:Hc.
  - pose proof (fix_tree_lookup _ _ _ _ _ i c E Hc) as Hl. simpl in Hl.
    rewrite Hi in Hl. injection Hl as ->.
    assert (has_id (if lacks_id c
                    then set_id c (token w (count_lacking (take i (cells nb))))
                    else c)) as Hid.
    { destruct (lacks_id c) eqn:El; [|by apply lacks_id_false].
      eexists. split; [done|]. apply uuid_str_nonempty. }
    destruct (decide _); [|done]. unfold has_id. by rewrite front_id.
  - apply lookup_ge_None in Hc. apply lookup_lt_Some in Hi. lia.
Qed.

(** Claim C7 (cell id invariant): [fix_tree] always returns; the notebook
    it returns has as many cells as before, in the same order, and every
    cell has a non-empty [id].  A cell that had a non-empty [id] keeps it; a
    cell whose [id] was missing or empty gets the token of the next draw of
    [uuid4], the draws being counted along the cells.  The other keys of the
    cells are kept, and so are the type and source of every cell but the
    first. *)
Theorem cell_id_invariant (nb : notebook) (w : world) :
  ∃ nb' changed,
    fix_tree nb w = Ok (nb', changed, after_draws w (count_lacking (cells nb)))
    ∧ length (cells nb') = length (cells nb)
    ∧ ∀ i c, cells nb !! i = Some c →
        ∃ c', cells nb' !! i = Some c'
          ∧ has_id c'
          ∧ cell_id c'
            = (if lacks_id c
               then Some (token w (count_lacking (take i (cells nb))))
               else cell_id c)
          ∧ cell_rest c' = cell_rest c
          ∧ (i ≠ 0%nat → cell_type c' = cell_type c ∧ source c' = source c).
Proof.
  pose proof (fix_tree_eq nb w) as E. rewrite ensure_ids_world in E.
  eexists _, _. split; [exact E|]. split.
  { simpl. by rewrite with_front_length, ensure_ids_length. }
  intros i c Hi. pose proof (fix_tree_lookup _ _ _ _ _ i c E Hi) as Hl.
  simpl in Hl. eexists. split; [exact Hl|].
  assert (Hid : ∀ x : cell,
    cell_id (if decide (i = 0%nat) then front x else x) = cell_id x).
  { intros x. destruct (decide _); [apply front_id|done]. }
  assert (Hrest : ∀ x : cell,
    cell_rest (if decide (i = 0%nat) then front x else x) = cell_rest x).
  { intros x. destruct (decide _); [apply front_rest|done]. }
  destruct (lacks_id c) eqn:Hc.
  - repeat split.
    + exists (token w (count_lacking (take i (cells nb)))).
      rewrite Hid. split; [done|]. apply uuid_str_nonempty.
    + by rewrite Hid.
    + by rewrite Hrest.
    + destruct (decide _); done.
    + destruct (decide _); done.
  - repeat split.
    + unfold has_id. rewrite Hid. by apply lacks_id_false.
    + by rewrite Hid.
    + by rewrite Hrest.
    + destruct (decide _); done.
    + destruct (decide _); done.
Qed.

(** ** fix_notebook *)

Lemma after_draws_0 (w : world) : after_draws w 0 = w.
Proof. destruct w. unfold after_draws. simpl. by rewrite Nat.add_0_r. Qed.

Lemma ensure_ids_head (c : cell) (cs : list cell) (w : world) :
  ∃ c' cs', (ensure_ids (c :: cs) w).1 = c' :: cs'
    ∧ cell_type c' = cell_type c ∧ source c' = source c.
Proof.
  simpl. destruct (lacks_id c).
  - unfold str_uuid4. destruct (ensure_ids cs _) as [cs' w']. by eexists _, _.
  - destruct (ensure_ids cs w) as [cs' w']. by eexists _, _.
Qed.

Lemma first_detected_ensure (cs : list cell) (w : world) :
  first_detected (ensure_ids cs w).1 = first_detected cs.
Proof.
  destruct cs as [|c cs]; [done|].
  destruct (ensure_ids_head c cs w) as (c' & cs' & -> & _ & Hs).
  simpl. unfold src_text. by rewrite Hs.
Qed.

Lemma flagged_eq (nb : notebook) (w : world) :
  first_detected (ensure_ids (cells nb) w).1 || existsb lacks_id (cells nb)
  = flagged nb.
Proof. rewrite first_detected_ensure. unfold flagged, first_detected. apply orb_comm. Qed.

(** A notebook that is not flagged comes out of [fix_tree] as it went in. *)
Lemma fix_tree_unflagged (nb : notebook) (w : world) :
  flagged nb = false → fix_tree nb w = Ok (nb, false, w).
Proof.
  intros Hf. rewrite fix_tree_eq, flagged_eq, Hf.
  apply orb_false_iff in Hf as [Hl Hd].
  rewrite ensure_ids_none by done. simpl.
  destruct nb as [cs r]. unfold set_cells. simpl in *.
  destruct cs as [|c cs]; [done|]. simpl. unfold front. by rewrite Hd.
Qed.

(** On a notebook whose sources are texts, the exceptions of the steps
    are caught or guarded against: [fix_notebook] returns. *)
Lemma fix_notebook_total (path : string) (w : world) :
  ∃ w', fix_notebook path w = Ok w'.
Proof.
  unfold fix_notebook. destruct (nbformat_read path w) as [nb|e]; [|by eexists].
  rewrite fix_tree_eq. unfold mbind, result_bind, bind. simpl.
  destruct (_ || _); [|by eexists].
  destruct (nbformat_write _ _ _) as [w' [e|]]; by eexists.
Qed.

Lemma main_loop_total (notebooks : list string) (w : world) :
  ∃ w', main_loop notebooks w = Ok w'.
Proof.
  revert w; induction notebooks as [|p ps IH]; intros w; simpl; [by eexists|].
  destruct (fix_notebook_total p w) as [w1 ->]. apply IH.
Qed.

(** Claim C9 (unreadable document): when [nbformat.read] raises on a path,
    [fix_notebook] returns normally and leaves the world as it was: no file
    is modified and no line is printed.  The loop of [main] goes on with the
    next notebook. *)
Theorem unreadable_document_skipped (path : string) (w : world) (e : exn) :
  nbformat_read path w = Raise e →
  fix_notebook path w = Ok w
  ∧ ∀ rest, main_loop (path :: rest) w = main_loop rest w.
Proof.
  intros Hr. assert (fix_notebook path w = Ok w) as H.
  { unfold fix_notebook. by rewrite Hr. }
  split; [done|]. intros rest. simpl. by rewrite H.
Qed.

(** C9 at a file that is no notebook. *)
Lemma unreadable_document_witness :
  let w := World {[ "bad.ipynb" := OtherFile "not a notebook" ]} ∅ (λ _, 0) 0 [] in
  fix_notebook "bad.ipynb" w = Ok w
  ∧ ∀ rest, main_loop ("bad.ipynb" :: rest) w = main_loop rest w.
Proof.
  intros w. apply (unreadable_document_skipped "bad.ipynb" w ValueError).
  reflexivity.
Defined.

(** Claim C1 (end-to-end scenario): for a notebook whose first cell has
    the type [code] and the source of the scenario, [fix_tree] returns a
    notebook whose first cell has the type [markdown] and the source
    [scenario_result], with the title quoted and [comments: true]; every
    cell of the result has a non-empty [id].  When the notebook was read from
    a path that can be written, [fix_notebook] stores that result there. *)
Theorem end_to_end_scenario (nb : notebook) (w : world) (first : cell) (rest : list cell) :
  cells nb = first :: rest →
  cell_type first = Some "code" →
  src_text first = scenario_source →
  ∃ nb' first' w',
    fix_tree nb w = Ok (nb', true, w')
    ∧ cells nb' !! 0%nat = Some first'
    ∧ cell_type first' = Some "markdown"
    ∧ source first' = Some (SrcStr scenario_result)
    ∧ (∀ c, c ∈ cells nb' → has_id c)
    ∧ ∀ path, nbformat_read path w = Ok nb → write_errors w !! path = None →
        ∃ w'', fix_notebook path w = Ok w''
             ∧ fs w'' !! path = Some (NotebookFile nb').
Proof.
  intros Hc Ht Hs.
  pose proof (fix_tree_eq nb w) as E. rewrite flagged_eq in E.
  assert (flagged nb = true) as Hf.
  { unfold flagged. rewrite Hc, Hs. apply orb_true_r. }
  rewrite Hf in E.
  destruct (ensure_ids_head first rest w) as (c' & cs' & Hh & Ht' & Hs').
  rewrite Hc in E. rewrite Hh in E. cbn [with_front] in E.
  eexists _, (front c'), _. split; [exact E|].
  assert (src_text c' = scenario_source) as Hx by (unfold src_text; by rewrite Hs').
  repeat split.
  - unfold front. rewrite Hx. change (detected scenario_source) with true.
    unfold retag. rewrite Ht', Ht. rewrite bool_decide_eq_true_2 by done. done.
  - unfold front. rewrite Hx. change (detected scenario_source) with true.
    assert (rewritten scenario_source = scenario_result) as -> by (by vm_compute).
    done.
  - intros c Hin. by eapply fix_tree_ids.
  - intros path Hr Hw. unfold fix_notebook. rewrite Hr.
    rewrite E. unfold mbind, result_bind, bind.
    unfold nbformat_write. rewrite ensure_ids_world. simpl. rewrite Hw.
    eexists. split; [done|]. simpl. by rewrite lookup_insert_eq.
Qed.

(** C1 at [scenario_notebook], whose second cell has an empty [id]. *)
Lemma end_to_end_scenario_witness :
  ∃ nb' first' w',
    fix_tree scenario_notebook (world_with "post.ipynb" (NotebookFile scenario_notebook))
    = Ok (nb', true, w')
    ∧ cells nb' !! 0%nat = Some first'
    ∧ cell_type first' = Some "markdown"
    ∧ source first' = Some (SrcStr scenario_result)
    ∧ (∀ c, c ∈ cells nb' → has_id c)
    ∧ ∀ path,
        nbformat_read path (world_with "post.ipynb" (NotebookFile scenario_notebook))
        = Ok scenario_notebook →
        write_errors (world_with "post.ipynb" (NotebookFile scenario_notebook)) !! path
        = None →
        ∃ w'', fix_notebook path (world_with "post.ipynb" (NotebookFile scenario_notebook))
               = Ok w''
             ∧ fs w'' !! path = Some (NotebookFile nb').
Proof.
  exact (end_to_end_scenario scenario_notebook
           (world_with "post.ipynb" (NotebookFile scenario_notebook))
           _ _ eq_refl eq_refl eq_refl).
Defined.

(** What [fix_notebook] does with a notebook it could read. *)
Lemma fix_notebook_read (path : string) (w : world) (nb : notebook) :
  nbformat_read path w = Ok nb →
  let w1 := after_draws w (count_lacking (cells nb)) in
  let nb' := set_cells nb (with_front (ensure_ids (cells nb) w).1) in
  fix_tree nb w = Ok (nb', flagged nb, w1)
  ∧ fix_notebook path w
    = Ok (if flagged nb then
            match write_errors w !! path with
            | None =>
                World (<[path := NotebookFile nb']> (fs w)) (write_errors w)
                  (urandom w) (drawn w1)
                  (events w ++ [Wrote path nb'; Printed ("Normalized: " +:+ path)])
            | Some f =>
                World (files_after path f (fs w)) (write_errors w)
                  (urandom w) (drawn w1)
                  (events w
                   ++ [Printed ("Failed to write " +:+ path +:+ ": "
                                +:+ exn_str (failure_exn f))])
            end
          else w).
Proof.
  intros Hr w1 nb'.
  pose proof (fix_tree_eq nb w) as E. rewrite flagged_eq, ensure_ids_world in E.
  split; [exact E|].
  unfold fix_notebook. rewrite Hr, E. unfold mbind, result_bind, bind.
  destruct (flagged nb) eqn:Hf.
  - unfold nbformat_write. simpl. destruct (write_errors w !! path) as [[e|e partial]|].
    + done.
    + done.
    + unfold print. simpl. by rewrite <- List.app_assoc.
  - apply orb_false_iff in Hf as [Hl _]. apply count_lacking_0 in Hl.
    rewrite Hl, after_draws_0. done.
Qed.

(** Claim C6, amended (conditional write): the notebook is written back
    exactly when [changed] was set, that is when some cell lacked an [id] or
    the first cell was detected as front matter (its source is then assigned
    again and [changed] set, whether or not the text differs).  A notebook
    that is not flagged comes out as it went in and the world is left as it
    was: nothing is written and nothing is printed.  A flagged notebook is
    written and a line [Normalized: path] printed; when the write raises, a
    line [Failed to write ...] is printed, no write is recorded and no other
    file is touched, while the file at the path is as it was only if the
    write raised before it opened the file, and holds the unfinished text
    otherwise. *)
Theorem written_when_flagged (path : string) (w : world) (nb : notebook) :
  nbformat_read path w = Ok nb →
  ∃ nb' w1 w',
    fix_tree nb w = Ok (nb', flagged nb, w1)
    ∧ fix_notebook path w = Ok w'
    ∧ (flagged nb = false → nb' = nb ∧ w' = w)
    ∧ (flagged nb = true → write_errors w !! path = None →
       fs w' = <[path := NotebookFile nb']> (fs w)
       ∧ events w' = events w ++ [Wrote path nb'; Printed ("Normalized: " +:+ path)])
    ∧ (flagged nb = true → ∀ f, write_errors w !! path = Some f →
       (∀ p, p ≠ path → fs w' !! p = fs w !! p)
       ∧ fs w' !! path
         = match f with
           | BeforeOpen _ => Some (NotebookFile nb)
           | AfterOpen _ partial => Some (OtherFile partial)
           end
       ∧ events w'
         = events w ++ [Printed ("Failed to write " +:+ path +:+ ": "
                                 +:+ exn_str (failure_exn f))]).
Proof.
  intros Hr. destruct (fix_notebook_read path w nb Hr) as [E1 E2].
  eexists _, _, _. split; [exact E1|]. split; [exact E2|].
  split; [|split].
  - intros H. pose proof (fix_tree_unflagged nb w H) as E3.
    rewrite E1, H in E3. rewrite H. split; congruence.
  - intros H H0. by rewrite H, H0.
  - intros H f H0. rewrite H, H0. cbn [fs events].
    split; [|split; [|done]].
    + intros p Hp. destruct f as [e|e partial]; [done|].
      cbn [files_after]. by rewrite lookup_insert_ne.
    + destruct f as [e|e partial]; cbn [files_after].
      * unfold nbformat_read in Hr. destruct (fs w !! path) as [[nb0|c]|]; [|done|done].
        by injection Hr as ->.
      * by rewrite lookup_insert_eq.
Qed.

(** C6, amended, at a notebook without front matter whose cell has an id. *)
Lemma written_when_flagged_witness :
  ∃ nb' w1 w',
    fix_tree plain_notebook (world_with "plain.ipynb" (NotebookFile plain_notebook))
    = Ok (nb', flagged plain_notebook, w1)
    ∧ fix_notebook "plain.ipynb" (world_with "plain.ipynb" (NotebookFile plain_notebook))
      = Ok w'
    ∧ (flagged plain_notebook = false →
       nb' = plain_notebook
       ∧ w' = world_with "plain.ipynb" (NotebookFile plain_notebook))
    ∧ (flagged plain_notebook = true →
       write_errors (world_with "plain.ipynb" (NotebookFile plain_notebook)) !! "plain.ipynb"
       = None →
       fs w' = <["plain.ipynb" := NotebookFile nb']>
                 (fs (world_with "plain.ipynb" (NotebookFile plain_notebook)))
       ∧ events w'
         = events (world_with "plain.ipynb" (NotebookFile plain_notebook))
           ++ [Wrote "plain.ipynb" nb'; Printed ("Normalized: " +:+ "plain.ipynb")])
    ∧ (flagged plain_notebook = true → ∀ f,
       write_errors (world_with "plain.ipynb" (NotebookFile plain_notebook)) !! "plain.ipynb"
       = Some f →
       (∀ p, p ≠ "plain.ipynb" →
          fs w' !! p = fs (world_with "plain.ipynb" (NotebookFile plain_notebook)) !! p)
       ∧ fs w' !! "plain.ipynb"
         = match f with
           | BeforeOpen _ => Some (NotebookFile plain_notebook)
           | AfterOpen _ partial => Some (OtherFile partial)
           end
       ∧ events w'
         = events (world_with "plain.ipynb" (NotebookFile plain_notebook))
           ++ [Printed ("Failed to write " +:+ "plain.ipynb" +:+ ": "
                        +:+ exn_str (failure_exn f))]).
Proof.
  exact (written_when_flagged "plain.ipynb"
           (world_with "plain.ipynb" (NotebookFile plain_notebook))
           plain_notebook eq_refl).
Defined.

(** Claim C6 as stated fails: [settled_notebook] has ids everywhere and
    front matter that is normalized already; it comes out of [fix_tree] as it
    went in, and [fix_notebook] writes it all the same. *)
Lemma settled_notebook_rewritten :
  fix_tree settled_notebook (world_with "post.ipynb" (NotebookFile settled_notebook))
  = Ok (settled_notebook, true, world_with "post.ipynb" (NotebookFile settled_notebook))
  ∧ (w' ← fix_notebook "post.ipynb" (world_with "post.ipynb" (NotebookFile settled_notebook));
     Ok (events w'))
    = Ok [Wrote "post.ipynb" settled_notebook; Printed "Normalized: post.ipynb"].
Proof. split; vm_compute; reflexivity. Qed.

(** Claim C2 on the code: the text [title: My Post] holds [title:], and
    yet it is not detected, since line 98 asks for a line equal to [title:]
    among the first three; the notebook is left as it was.  A first line
    that is [title:] and nothing else is detected. *)
Lemma title_line_not_detected :
  contains "title:" "title: My Post" = true
  ∧ detected "title: My Post" = false
  ∧ detected "title:" = true
  ∧ ∀ w, fix_tree titled_notebook w = Ok (titled_notebook, false, w).
Proof.
  split; [by vm_compute|]. split; [by vm_compute|]. split; [by vm_compute|].
  intros w. by apply fix_tree_unflagged.
Qed.

(** ** Characters *)

Ltac each_char c := destruct c as [[] [] [] [] [] [] [] []].

Lemma space_not_key (c : ascii) : isspace c = true → is_key_char c = false.
Proof. each_char c; vm_compute; congruence. Qed.

Lemma break_is_space (c : ascii) : islinebreak c = true → isspace c = true.
Proof. each_char c; vm_compute; congruence. Qed.

Lemma lower_char_space (c : ascii) : isspace (lower_char c) = isspace c.
Proof. each_char c; reflexivity. Qed.

Lemma lower_char_break (c : ascii) : islinebreak (lower_char c) = islinebreak c.
Proof. each_char c; reflexivity. Qed.

Lemma lower_char_is (c d : ascii) :
  isspace d = true ∨ d = ":"%char ∨ d = "034"%char ∨ d = "039"%char →
  lower_char c = d → c = d.
Proof.
  intros H E. subst d.
  each_char c; vm_compute in H |- *;
    first [reflexivity | (destruct H as [H|[H|[H|H]]]; discriminate H)].
Qed.

Lemma LF_break : islinebreak LF = true.
Proof. reflexivity. Qed.

(** ** Lines *)

Lemma all_chars_app (p : ascii → bool) (a b : string) :
  all_chars p (a +:+ b) = all_chars p a && all_chars p b.
Proof. induction a as [|c a IH]; simpl; [done|]. by rewrite IH, andb_assoc. Qed.

Lemma one_line_cons (c : ascii) (s : string) :
  one_line (String c s) = negb (islinebreak c) && one_line s.
Proof. reflexivity. Qed.

Lemma one_line_app (a b : string) : one_line (a +:+ b) = one_line a && one_line b.
Proof. apply all_chars_app. Qed.

Lemma one_line_no_LF (s : string) : one_line s = true → has LF s = false.
Proof.
  induction s as [|c s IH]; [done|]. rewrite one_line_cons. cbn [has].
  intros [Hc Hs]%andb_true_iff. rewrite IH by done.
  rewrite orb_false_r. apply bool_decide_eq_false. intros ->. done.
Qed.

Lemma splitlines_one_line (s : string) :
  Forall (λ l, one_line l = true) (splitlines s).
Proof.
  induction s as [|c s IH]; simpl; [constructor|].
  destruct (islinebreak c) eqn:Hc.
  - destruct (_ && _); [done|]. by constructor.
  - destruct (splitlines s) as [|l ls].
    + constructor; [|constructor]. by rewrite one_line_cons, Hc.
    + inversion IH; subst. constructor; [|done]. by rewrite one_line_cons, Hc.
Qed.

Lemma splitlines_cons (c : ascii) (s : string) : splitlines (String c s) ≠ [].
Proof.
  cbn [splitlines]. destruct (islinebreak c).
  - destruct (_ && _) eqn:Hcr; [|done].
    apply andb_true_iff in Hcr as [_ Hd]. destruct s as [|d s]; [done|].
    rewrite startswith_cons in Hd.
    apply andb_true_iff in Hd as [Hd _]. apply bool_decide_eq_true in Hd. subst d.
    cbn [splitlines]. change (islinebreak "010") with true. cbn. done.
  - by destruct (splitlines s).
Qed.

Lemma splitlines_nil (s : string) : splitlines s = [] → s = "".
Proof. destruct s; [done|]. intros H. by apply splitlines_cons in H. Qed.

(** The first line is a prefix of the text. *)
Lemma splitlines_prefix (s l0 : string) (ls : list string) :
  splitlines s = l0 :: ls → ∃ t, s = l0 +:+ t.
Proof.
  revert l0 ls; induction s as [|c s IH]; intros l0 ls; [done|].
  cbn [splitlines]. destruct (islinebreak c) eqn:Hc.
  - destruct (_ && _) eqn:Hcr.
    + intros H. destruct s as [|d s]; [done|].
      apply andb_true_iff in Hcr as [_ Hd]. rewrite startswith_cons in Hd.
      apply andb_true_iff in Hd as [Hd _]. apply bool_decide_eq_true in Hd. subst d.
      cbn [splitlines] in H. change (islinebreak "010") with true in H.
      cbn in H. injection H as <- _. by eexists.
    + intros [= <- _]. by eexists.
  - destruct (splitlines s) as [|l ls'] eqn:Hs.
    + intros [= <- _]. apply splitlines_nil in Hs as ->. by exists "".
    + intros [= <- _]. destruct (IH l ls' eq_refl) as [t ->]. by exists t.
Qed.

Lemma splitlines_line_nl (x t : string) :
  one_line x = true → splitlines (x +:+ newline +:+ t) = x :: splitlines t.
Proof.
  induction x as [|c x IH]; intros Hx.
  - cbn. change (islinebreak LF) with true. cbn. done.
  - rewrite one_line_cons in Hx. apply andb_true_iff in Hx as [Hc Hx].
    apply negb_true_iff in Hc. cbn [String.append splitlines]. rewrite Hc.
    pose proof (IH Hx) as E. cbn [String.append] in E. by rewrite E.
Qed.

Lemma splitlines_line (x : string) :
  one_line x = true → splitlines x = if bool_decide (x = "") then [] else [x].
Proof.
  induction x as [|c x IH]; intros Hx; [done|].
  rewrite one_line_cons in Hx. apply andb_true_iff in Hx as [Hc Hx].
  apply negb_true_iff in Hc. cbn [splitlines]. rewrite Hc, (IH Hx).
  rewrite (bool_decide_eq_false_2 (String c x = "")) by done.
  by case_bool_decide; subst.
Qed.

Lemma join_cons (sep x y : string) (L : list string) :
  join sep (x :: y :: L) = x +:+ sep +:+ join sep (y :: L).
Proof. reflexivity. Qed.

Lemma trim_last_cons (x y : string) (L : list string) :
  trim_last (x :: y :: L) = x :: trim_last (y :: L).
Proof. unfold trim_last. cbn [last removelast]. by case_bool_decide. Qed.

Lemma splitlines_join (L : list string) :
  Forall (λ l, one_line l = true) L → splitlines (join newline L) = trim_last L.
Proof.
  induction L as [|x [|y L] IH]; intros HL.
  - done.
  - inversion HL; subst. cbn [join String.concat]. rewrite splitlines_line by done.
    unfold trim_last. cbn [last removelast].
    rewrite (bool_decide_ext (Some x = Some "") (x = "")) by (split; congruence).
    done.
  - inversion HL; subst. rewrite join_cons, trim_last_cons.
    rewrite splitlines_line_nl by done. by rewrite IH.
Qed.

Lemma splitlines_join_nl (L : list string) :
  Forall (λ l, one_line l = true) L → L ≠ [] →
  splitlines (join newline L +:+ newline) = L.
Proof.
  induction L as [|x [|y L] IH]; intros HL Hne; [done| |].
  - inversion HL; subst. cbn [join String.concat].
    pose proof (splitlines_line_nl x "" H1) as E. by rewrite append_nil_r in E.
  - inversion HL; subst. rewrite join_cons, !append_assoc.
    rewrite splitlines_line_nl by done. by rewrite IH.
Qed.

Lemma join_snoc (L : list string) :
  L ≠ [] → join newline (L ++ [""]) = join newline L +:+ newline.
Proof.
  induction L as [|x [|y L] IH]; intros Hne; [done| |].
  - cbn. by rewrite ?append_nil_r.
  - change ((x :: y :: L) ++ [""]) with (x :: y :: (L ++ [""])).
    rewrite !join_cons, !append_assoc. do 2 f_equal. by apply IH.
Qed.

Lemma join_unlines (L : list string) :
  L ≠ [] → join newline L +:+ newline = unlines L.
Proof.
  induction L as [|x [|y L] IH]; intros Hne; [done| |].
  - cbn. by rewrite ?append_nil_r.
  - rewrite join_cons, !append_assoc. cbn [unlines]. do 2 f_equal. by apply IH.
Qed.

Lemma endswith_line (x : string) : one_line x = true → endswith x newline = false.
Proof.
  induction x as [|c x IH]; intros Hx; [done|].
  rewrite one_line_cons in Hx. apply andb_true_iff in Hx as [Hc Hx].
  cbn [endswith]. rewrite (IH Hx).
  destruct (decide (String c x = newline)) as [[= -> ->]|]; done.
Qed.

Lemma endswith_app_nonempty (a b : string) :
  b ≠ "" → endswith (a +:+ b) newline = endswith b newline.
Proof.
  intros Hb. induction a as [|c a IH]; [done|].
  cbn [String.append endswith]. rewrite IH.
  destruct (decide (String c (a +:+ b) = newline)) as [[= _ H]|]; [|done].
  destruct a; simpl in H; congruence.
Qed.

Lemma join_nil (y : string) (L : list string) :
  join newline (y :: L) = "" → y = "" ∧ L = [].
Proof.
  destruct L as [|z L]; [done|]. rewrite join_cons.
  destruct y; simpl; done.
Qed.

Lemma endswith_join (L : list string) :
  Forall (λ l, one_line l = true) L → last L ≠ Some "" →
  endswith (join newline L) newline = false.
Proof.
  induction L as [|x [|y L] IH]; intros HL Hl; [done| |].
  - inversion HL; subst. by apply endswith_line.
  - inversion HL; subst. rewrite join_cons, <- append_assoc.
    rewrite endswith_app_nonempty.
    + by apply IH.
    + intros [-> ->]%join_nil. done.
Qed.

(** ** The pattern *)

Lemma span_eq (p : ascii → bool) (s : string) :
  s = (span p s).1 +:+ (span p s).2
  ∧ all_chars p (span p s).1 = true
  ∧ ∀ c t, (span p s).2 = String c t → p c = false.
Proof.
  induction s as [|c s (IH1 & IH2 & IH3)]; simpl; [done|].
  destruct (p c) eqn:Hc.
  - destruct (span p s) as [a b]. simpl in *. rewrite Hc, IH2, <- IH1. done.
  - simpl. split; [done|]. split; [done|]. by intros d t [= <- _].
Qed.

Lemma span_app (p : ascii → bool) (a b : string) :
  all_chars p a = true → (∀ c t, b = String c t → p c = false) →
  span p (a +:+ b) = (a, b).
Proof.
  intros Ha Hb. induction a as [|c a IH]; simpl in *.
  - destruct b as [|c b]; simpl; [done|]. by rewrite (Hb c b).
  - apply andb_true_iff in Ha as [Hc Ha]. by rewrite Hc, IH.
Qed.

Lemma span_all (p : ascii → bool) (a : string) :
  all_chars p a = true → span p a = (a, "").
Proof.
  intros Ha. rewrite <- (append_nil_r a) at 1. by apply span_app.
Qed.

(** What a match says about the line. *)
Lemma match_inv (line key val : string) :
  FRONT_MATTER_KEY_RE line = Some (key, val) →
  key ≠ "" ∧ all_chars is_key_char key = true
  ∧ all_chars re_dot val = true
  ∧ ∃ rest tail, line = key +:+ ":" +:+ rest ∧ lstrip rest = val +:+ tail
      ∧ (tail = "" ∨ tail = newline).
Proof.
  unfold FRONT_MATTER_KEY_RE.
  destruct (span_eq is_key_char line) as (E & Hk & _).
  destruct (span is_key_char line) as [k r]. simpl in *.
  destruct k as [|k0 k]; [done|]. destruct r as [|c r]; [done|].
  case_bool_decide; [subst c|done].
  destruct (span_eq re_dot (lstrip r)) as (E2 & Hv & _).
  destruct (span re_dot (lstrip r)) as [v tl]. simpl in *.
  destruct (_ || _) eqn:Ht; [|done]. intros [= <- <-].
  repeat split; [done|done|done|]. exists r, tl. repeat split; [done|done|].
  apply orb_true_iff in Ht as [Ht|Ht]; apply bool_decide_eq_true in Ht; auto.
Qed.

Lemma colon_not_key : is_key_char ":" = false.
Proof. reflexivity. Qed.

(** A key, a colon, a space and a value on one line match as they stand. *)
Lemma match_rebuilt (key q : string) :
  key ≠ "" → all_chars is_key_char key = true →
  lstrip q = q → all_chars re_dot q = true →
  FRONT_MATTER_KEY_RE (key +:+ ": " +:+ q) = Some (key, q).
Proof.
  intros Hne Hk Hq Hd. unfold FRONT_MATTER_KEY_RE.
  rewrite (span_app is_key_char key (": " +:+ q)); [|done|].
  - destruct key as [|k0 key]; [done|]. simpl.
    change (isspace " ") with true. simpl. rewrite Hq, (span_all re_dot q Hd).
    done.
  - simpl. by intros c t [= <- _].
Qed.

(** ** What quote_value keeps *)

Section Classes.
(** A class of characters [lower] does not leave and that holds the
    characters [quote_value] adds. *)
Variable p : ascii → bool.
Hypothesis p_lower : ∀ c, p c = true → p (lower_char c) = true.
Hypothesis p_dquote : p "034" = true.
Hypothesis p_backslash : p "092" = true.

Lemma all_chars_lower (s : string) :
  all_chars p s = true → all_chars p (lower s) = true.
Proof.
  induction s as [|c s IH]; simpl; [done|].
  intros [Hc Hs]%andb_true_iff. by rewrite p_lower, IH.
Qed.

Lemma all_chars_strip (s : string) :
  all_chars p s = true → all_chars p (strip s) = true.
Proof.
  destruct (strip_trimmed s) as ((a & b & E & _) & _).
  intros H. rewrite E, !all_chars_app in H.
  apply andb_true_iff in H as [_ H]. by apply andb_true_iff in H as [H _].
Qed.

Lemma all_chars_escape (s : string) :
  all_chars p s = true → all_chars p (escape_dquotes s) = true.
Proof.
  induction s as [|c s IH]; simpl; [done|].
  intros [Hc Hs]%andb_true_iff. rewrite all_chars_app, IH by done.
  case_bool_decide; simpl; by rewrite ?p_dquote, ?p_backslash, ?Hc.
Qed.

Lemma all_chars_quote_value (val : string) :
  all_chars p val = true → all_chars p (quote_value val) = true.
Proof.
  intros H. apply all_chars_strip in H. unfold quote_value.
  destruct (_ || _); [done|].
  destruct (list_in _ _); [by apply all_chars_lower|].
  destruct (_ || _); [|done].
  rewrite replace_escape, !all_chars_app, all_chars_escape by done.
  simpl. by rewrite p_dquote.
Qed.
End Classes.

Lemma one_line_quote_value (val : string) :
  one_line val = true → one_line (quote_value val) = true.
Proof.
  apply all_chars_quote_value; [|done|done].
  intros c Hc. by rewrite lower_char_break.
Qed.

Lemma re_dot_quote_value (val : string) :
  all_chars re_dot val = true → all_chars re_dot (quote_value val) = true.
Proof.
  apply all_chars_quote_value; [|done|done].
  intros c Hc. unfold re_dot in *. apply negb_true_iff, bool_decide_eq_false.
  intros E. apply lower_char_is in E; [|by left]. subst c. done.
Qed.

Lemma has_lower (d : ascii) (s : string) :
  isspace d = true ∨ d = ":"%char ∨ d = "034"%char ∨ d = "039"%char →
  has d (lower s) = has d s.
Proof.
  intros Hd. induction s as [|c s IH]; simpl; [done|]. rewrite IH. f_equal.
  apply bool_decide_ext. split; [by apply lower_char_is|].
  intros ->. destruct Hd as [Hd | [-> | [-> | ->]]]; try done.
  revert Hd. each_char d; vm_compute; congruence.
Qed.

Lemma has_strip (d : ascii) (s : string) :
  isspace d = false → has d (strip s) = has d s.
Proof.
  intros Hd. destruct (strip_trimmed s) as ((a & b & E & Ha & Hb) & _).
  rewrite E at 2. rewrite !has_app.
  assert (∀ x, all_chars isspace x = true → has d x = false) as Hx.
  { induction x as [|c x IH]; simpl; [done|]. intros [Hc Hs]%andb_true_iff.
    rewrite IH, orb_false_r by done. apply bool_decide_eq_false. congruence. }
  by rewrite (Hx a Ha), (Hx b Hb), orb_false_r.
Qed.

Lemma has_escape (d : ascii) (s : string) :
  has d s = true → has d (escape_dquotes s) = true.
Proof.
  induction s as [|c s IH]; simpl; [done|].
  intros [Hc|Hs]%orb_true_iff; rewrite has_app.
  - apply bool_decide_eq_true in Hc. subst d.
    case_bool_decide; [subst c; by vm_compute|].
    simpl. by rewrite bool_decide_eq_true_2.
  - by rewrite IH, orb_true_r.
Qed.

Lemma has_colon_quote_value (val : string) :
  has ":" val = true → has ":" (quote_value val) = true.
Proof.
  intros H. rewrite <- has_strip in H by done. unfold quote_value.
  destruct (_ || _); [done|].
  destruct (list_in _ _); [rewrite has_lower; [done|by right; left]|].
  destruct (_ || _); [|done].
  rewrite replace_escape, !has_app, has_escape by done. by rewrite orb_true_r.
Qed.

(** The value [quote_value] returns has no white space at its ends. *)
Lemma lstrip_lower (s : string) : lstrip s = s → lstrip (lower s) = lower s.
Proof.
  destruct s as [|c s]; [done|]. simpl. rewrite lower_char_space.
  destruct (isspace c) eqn:Hc; [|done].
  intros E. destruct (lstrip_split s) as (a & Ea & _).
  assert (String.length (lstrip s) ≤ String.length s)%nat as Hl.
  { rewrite Ea at 2. clear. induction a; simpl; lia. }
  rewrite E in Hl. simpl in Hl. lia.
Qed.

Lemma app_last_inj (a b : string) (x y : ascii) :
  a +:+ String x "" = b +:+ String y "" → x = y.
Proof.
  revert b; induction a as [|c a IH]; intros b; simpl.
  - destruct b as [|d b]; simpl; [by intros [= ->]|].
    intros [= _ H]. destruct b; done.
  - destruct b as [|d b]; simpl.
    + intros [= _ H]. destruct a; done.
    + intros [= _ H]. by apply (IH b).
Qed.

Lemma lstrip_quote_value (val : string) : lstrip (quote_value val) = quote_value val.
Proof.
  destruct (strip_trimmed val) as (_ & Hh & _). unfold quote_value.
  destruct (_ || _); [by apply lstrip_id|].
  destruct (list_in _ _); [by apply lstrip_lower, lstrip_id|].
  destruct (_ || _); [done|by apply lstrip_id].
Qed.

Lemma strip_quoted (s : string) :
  strip (dquote +:+ s +:+ dquote) = dquote +:+ s +:+ dquote.
Proof.
  apply strip_id.
  - by intros c t [= <- _].
  - intros c t E. change (dquote +:+ s +:+ dquote) with ((dquote +:+ s) +:+ dquote) in E.
    unfold dquote at 2 in E. apply app_last_inj in E. by subst c.
Qed.

Lemma quote_value_cases (val : string) :
  let v := strip val in
  (quote_value val = v ∧ quote_value v = v)
  ∨ (quote_value val = lower v ∧ lower v ∈ ["true"; "false"; "null"])
  ∨ (quote_value val = dquote +:+ escape_dquotes v +:+ dquote).
Proof.
  intros v. subst v. unfold quote_value. cbv zeta.
  rewrite strip_strip, replace_escape. set (v := strip val).
  destruct (startswith v dquote && endswith v dquote
            || startswith v squote && endswith v squote); [by left|].
  destruct (list_in (lower v) ["true"; "false"; "null"]) eqn:Hl.
  { right; left. by apply list_in_true in Hl. }
  destruct (contains ":" v || startswith v " " || endswith v " "
            || contains newline v || startswith v "#"); [by right; right|].
  by left.
Qed.

Lemma quote_value_idem (val : string) :
  quote_value (quote_value val) = quote_value val.
Proof.
  destruct (quote_value_cases val) as [[-> E]|[[-> Hl]| ->]].
  - done.
  - apply elem_of_cons in Hl as [->|Hl]; [by vm_compute|].
    apply elem_of_cons in Hl as [->|Hl]; [by vm_compute|].
    apply elem_of_cons in Hl as [->|Hl]; [by vm_compute|].
    by apply elem_of_nil in Hl.
  - set (q := dquote +:+ _ +:+ dquote).
    assert (strip q = q) as Hq by apply strip_quoted.
    assert (startswith q dquote = true) as Hq1 by apply startswith_app.
    assert (endswith q dquote = true) as Hq2.
    { unfold q. rewrite <- append_assoc. apply endswith_app. }
    unfold quote_value. by rewrite Hq, Hq1, Hq2.
Qed.

(** ** What normalize_line keeps *)

(** A line comes out as it is, or as a key, a colon, a space and a value. *)
Lemma normalize_line_cases (line : string) :
  normalize_line line = line
  ∨ ∃ key val q,
      FRONT_MATTER_KEY_RE line = Some (key, val)
      ∧ normalize_line line = key +:+ ": " +:+ q
      ∧ FRONT_MATTER_KEY_RE (key +:+ ": " +:+ q) = Some (key, q)
      ∧ normalize_line (key +:+ ": " +:+ q) = key +:+ ": " +:+ q
      ∧ (one_line val = true → one_line q = true).
Proof.
  unfold normalize_line at 1 2.
  destruct (FRONT_MATTER_KEY_RE line) as [[key val]|] eqn:Hm; [|by left].
  destruct (match_inv line key val Hm) as (Hne & Hk & Hv & _).
  assert (∀ q, q = "true" ∨ q = "false" →
    FRONT_MATTER_KEY_RE (key +:+ ": " +:+ q) = Some (key, q)) as Hlit.
  { intros q [-> | ->]; by apply match_rebuilt. }
  case_bool_decide as Hc.
  - right. exists key, val.
    assert (∀ q, q = "true" ∨ q = "false" →
      normalize_line (key +:+ ": " +:+ q) = key +:+ ": " +:+ q
      ∧ (one_line val = true → one_line q = true)) as Hn.
    { intros q Hq. unfold normalize_line. rewrite (Hlit q Hq).
      rewrite bool_decide_eq_true_2 by done.
      destruct Hq as [-> | ->].
      - change (lower (strip "true")) with "true".
        change (list_in "true" ["true"; "false"]) with true. by split.
      - change (lower (strip "false")) with "false".
        change (list_in "false" ["true"; "false"]) with true. by split. }
    destruct (list_in _ _) eqn:Hl.
    + apply list_in_true in Hl.
      assert (lower (strip val) = "true" ∨ lower (strip val) = "false") as Hq.
      { apply elem_of_cons in Hl as [Hl|Hl]; [by left|].
        apply elem_of_cons in Hl as [Hl|Hl]; [by right|].
        by apply elem_of_nil in Hl. }
      exists (lower (strip val)). destruct (Hn _ Hq) as [Hn1 Hn2].
      split; [done|]. split; [done|]. split; [by apply Hlit|]. by split.
    + exists "true". destruct (Hn "true") as [Hn1 Hn2]; [by left|].
      split; [done|]. split; [done|]. split; [apply Hlit; by left|]. by split.
  - destruct (_ || _) eqn:Hq; [|by left]. right.
    exists key, val, (quote_value val).
    assert (FRONT_MATTER_KEY_RE (key +:+ ": " +:+ quote_value val)
            = Some (key, quote_value val)) as Hm2.
    { apply match_rebuilt; [done|done|apply lstrip_quote_value|].
      by apply re_dot_quote_value. }
    split; [done|]. split; [done|]. split; [done|].
    split; [|apply one_line_quote_value].
    unfold normalize_line. rewrite Hm2, (bool_decide_eq_false_2 _ Hc).
    rewrite quote_value_idem.
    apply orb_true_iff in Hq as [Hq|Hq]; [by rewrite Hq|].
    rewrite contains_char in *. by rewrite has_colon_quote_value, orb_true_r.
Qed.

Lemma normalize_line_idem (line : string) :
  normalize_line (normalize_line line) = normalize_line line.
Proof.
  destruct (normalize_line_cases line) as [E|(key & val & q & _ & E & _ & E2 & _)].
  - by rewrite E.
  - by rewrite E, E2.
Qed.

Lemma has_rebuilt (key q : string) :
  has ":" (key +:+ ": " +:+ q) = true ∧ has " " (key +:+ ": " +:+ q) = true.
Proof. rewrite !has_app. simpl. by rewrite !orb_true_r. Qed.

(** A rewritten line holds a colon and a space. *)
Lemma normalize_line_marks (line : string) :
  normalize_line line = line
  ∨ (has ":" (normalize_line line) = true ∧ has " " (normalize_line line) = true).
Proof.
  destruct (normalize_line_cases line) as [E|(key & val & q & _ & E & _)];
    [by left|right].
  rewrite E. apply has_rebuilt.
Qed.

Lemma normalize_line_delimiter (line : string) :
  normalize_line line = "---" → line = "---".
Proof.
  intros E. destruct (normalize_line_marks line) as [<-|[H _]]; [done|].
  rewrite E in H. done.
Qed.

Lemma normalize_line_empty (line : string) :
  normalize_line line = "" → line = "".
Proof.
  intros E. destruct (normalize_line_marks line) as [<-|[H _]]; [done|].
  rewrite E in H. done.
Qed.

Lemma normalize_line_title (line : string) : normalize_line line ≠ "title:".
Proof.
  intros E. destruct (normalize_line_marks line) as [E2|[_ H]].
  - rewrite E2 in E. subst line. by vm_compute in E2.
  - rewrite E in H. done.
Qed.

Lemma normalize_line_strip (line : string) :
  strip (normalize_line line) = "---" → strip line = "---".
Proof.
  intros E. destruct (normalize_line_marks line) as [<-|[H _]]; [done|].
  rewrite <- has_strip, E in H by done. done.
Qed.

Lemma normalize_line_one_line (line : string) :
  one_line line = true → one_line (normalize_line line) = true.
Proof.
  intros Hl.
  destruct (normalize_line_cases line) as [->|(key & val & q & Hm & -> & _ & _ & Hq)];
    [done|].
  destruct (match_inv line key val Hm) as (_ & _ & _ & rest & tail & E & Er & _).
  destruct (lstrip_split rest) as (a & Ea & _).
  rewrite E, Ea, Er, !one_line_app in Hl.
  repeat (apply andb_true_iff in Hl as [? Hl] || apply andb_true_iff in Hl as [Hl ?]).
  rewrite !one_line_app, Hq, H by done. done.
Qed.

(** A delimiter line does not match the pattern. *)
Lemma delimiter_unmatched (l0 : string) :
  strip l0 = "---" → FRONT_MATTER_KEY_RE l0 = None.
Proof.
  intros E. destruct (strip_trimmed l0) as ((a & b & El & Ha & Hb) & _).
  rewrite E in El. unfold FRONT_MATTER_KEY_RE.
  destruct a as [|c a].
  - change ("" +:+ "---" +:+ b) with ("---" +:+ b) in El. subst l0.
    rewrite (span_app is_key_char "---" b); [|done|].
    + destruct b as [|c b]; [done|]. simpl in Hb.
      apply andb_true_iff in Hb as [Hc _].
      case_bool_decide; [subst c; done|done].
    + intros c t ->. simpl in Hb. apply andb_true_iff in Hb as [Hc _].
      by apply space_not_key.
  - simpl in Ha. apply andb_true_iff in Ha as [Hc _].
    subst l0. simpl. by rewrite (space_not_key c Hc).
Qed.

Lemma normalize_delimiter (l0 : string) : strip l0 = "---" → normalize_line l0 = l0.
Proof. intros E. unfold normalize_line. by rewrite delimiter_unmatched. Qed.

(** A text whose first line is a delimiter is detected. *)
Lemma lstrip_app_spaces (a s : string) :
  all_chars isspace a = true → lstrip (a +:+ s) = lstrip s.
Proof.
  induction a as [|c a IH]; simpl; [done|].
  intros [Hc Ha]%andb_true_iff. rewrite Hc. by apply IH.
Qed.

Lemma opens_detected (text : string) :
  opens_block (splitlines text) = true → detected text = true.
Proof.
  unfold opens_block. destruct (splitlines text) as [|l0 ls] eqn:Hs; [done|].
  intros E%bool_decide_eq_true.
  destruct (splitlines_prefix _ _ _ Hs) as [t ->].
  destruct (strip_trimmed l0) as ((a & b & El & Ha & _) & _).
  rewrite E in El. unfold detected.
  rewrite El, !append_assoc, lstrip_app_spaces by done.
  change (lstrip ("---" +:+ b +:+ t)) with ("---" +:+ b +:+ t).
  by rewrite startswith_app.
Qed.

(** ** The closing delimiter *)

Lemma find_from_None (x : string) (l : list string) (i : nat) :
  find_from x l i = None ↔ x ∉ l.
Proof.
  revert i; induction l as [|y l IH]; intros i; simpl.
  - split; [|done]. intros _. apply not_elem_of_nil.
  - destruct (decide (y = x)) as [->|Hne].
    + split; [done|]. intros H. exfalso. apply H. left.
    + rewrite IH, not_elem_of_cons. split; [by split|by intros [_ ?]].
Qed.

Lemma find_from_Some (x : string) (l : list string) (i e : nat) :
  find_from x l i = Some e ↔
  ∃ a b, l = a ++ (x :: b) ∧ (x ∉ a) ∧ e = (i + length a)%nat.
Proof.
  revert i; induction l as [|y l IH]; intros i; simpl.
  - split; [done|]. intros (a & b & H & _). by destruct a.
  - destruct (decide (y = x)) as [->|Hne].
    + split.
      * intros [= <-]. exists [], l. split; [done|]. split; [apply not_elem_of_nil|].
        simpl. lia.
      * intros (a & b & H & Ha & ->). destruct a as [|z a].
        -- simpl. f_equal. lia.
        -- injection H as <- _. exfalso. apply Ha. left.
    + rewrite IH. split.
      * intros (a & b & -> & Ha & ->). exists (y :: a), b.
        split; [done|]. split; [|simpl; lia].
        apply not_elem_of_cons. done.
      * intros (a & b & H & Ha & ->). destruct a as [|z a].
        -- injection H as -> _. done.
        -- injection H as <- ->. exists a, b. split; [done|].
           apply not_elem_of_cons in Ha as [_ Ha]. split; [done|]. simpl. lia.
Qed.

Lemma normalize_keeps_open (ls : list string) :
  "---" ∉ ls → "---" ∉ normalize_front_matter_lines ls.
Proof.
  rewrite normalize_front_matter_lines_map. intros H Hin.
  apply list_elem_of_fmap in Hin as (l & E & Hl). symmetry in E.
  apply normalize_line_delimiter in E. by subst l.
Qed.

Lemma normalize_front_matter_lines_length (ls : list string) :
  length (normalize_front_matter_lines ls) = length ls.
Proof. by rewrite normalize_front_matter_lines_map, length_map. Qed.

Lemma normalize_front_matter_lines_idem (ls : list string) :
  normalize_front_matter_lines (normalize_front_matter_lines ls)
  = normalize_front_matter_lines ls.
Proof.
  rewrite !normalize_front_matter_lines_map, <- list_fmap_compose.
  apply list_fmap_ext. intros i l _. apply normalize_line_idem.
Qed.

Lemma normalize_front_matter_lines_one_line (ls : list string) :
  Forall (λ l, one_line l = true) ls →
  Forall (λ l, one_line l = true) (normalize_front_matter_lines ls).
Proof.
  rewrite normalize_front_matter_lines_map. intros H.
  apply Forall_fmap. eapply Forall_impl; [exact H|].
  intros l Hl. by apply normalize_line_one_line.
Qed.

(** ** The first cell *)

Lemma fix_tree_first (nb : notebook) (w : world) (first : cell) (rest : list cell) :
  cells nb = first :: rest →
  ∃ c' cs' w',
    fix_tree nb w = Ok (set_cells nb (front c' :: cs'), flagged nb, w')
    ∧ src_text c' = src_text first ∧ cell_type c' = cell_type first
    ∧ fs w' = fs w ∧ write_errors w' = write_errors w ∧ events w' = events w.
Proof.
  intros Hc. pose proof (fix_tree_eq nb w) as E.
  rewrite flagged_eq, ensure_ids_world in E.
  destruct (ensure_ids_head first rest w) as (c' & cs' & Hh & Ht & Hs).
  rewrite Hc, Hh in E. cbn [with_front] in E.
  exists c', cs'. eexists. split; [exact E|].
  unfold src_text. by rewrite Hs.
Qed.

Lemma front_detected (c : cell) :
  detected (src_text c) = true →
  source (front c) = Some (SrcStr (rewritten (src_text c)))
  ∧ cell_type (front c) = Some "markdown".
Proof.
  intros Hd. unfold front, retag. rewrite Hd.
  case_bool_decide as H; [done|]. split; [done|]. simpl.
  destruct (cell_type c) as [t|]; [|by destruct H].
  destruct (decide (t = "markdown")) as [->|]; [done|]. destruct H. congruence.
Qed.

Lemma fix_notebook_flagged (path : string) (w w' : world) (nb nb' : notebook) :
  nbformat_read path w = Ok nb →
  fix_tree nb w = Ok (nb', true, w') →
  ∃ w'', fix_notebook path w = Ok w''
    ∧ (write_errors w !! path = None →
       fs w'' !! path = Some (NotebookFile nb')
       ∧ Wrote path nb' ∈ events w'').
Proof.
  intros Hr E. destruct (fix_notebook_read path w nb Hr) as [E1 E2].
  rewrite E in E1. injection E1 as -> Hf _. rewrite <- Hf in E2.
  eexists. split; [exact E2|]. intros ->. simpl.
  rewrite lookup_insert_eq. split; [done|].
  apply elem_of_app. right. left.
Qed.

(** ** The fallback without a closing delimiter *)

Lemma rewritten_unclosed (text l0 : string) (ls : list string) :
  splitlines text = l0 :: ls → strip l0 = "---" → "---" ∉ ls →
  detected text = true
  ∧ rewritten text = join newline (normalize_front_matter_lines (l0 :: ls)).
Proof.
  intros Hs H0 Hls.
  assert (opens_block (splitlines text) = true) as Ho.
  { rewrite Hs. simpl. by apply bool_decide_eq_true. }
  split; [by apply opens_detected|].
  unfold rewritten. rewrite Ho, Hs. unfold closing. simpl.
  rewrite drop_0. by rewrite (proj2 (find_from_None "---" ls 1) Hls).
Qed.

(** Claim C8 (no closing delimiter): when the first line of the source of
    the first cell, stripped, is [---] and no later line is [---],
    [fix_tree] and [fix_notebook] return normally.  The new source is the
    lines of the old one, each through [normalize_line], joined by newlines:
    the opening line is left as it is, there are as many lines as before,
    and none after the first is [---], so that no closing delimiter was
    added. *)
Theorem unclosed_front_matter_fallback
    (nb : notebook) (w : world) (first : cell) (rest : list cell)
    (l0 : string) (ls : list string) :
  cells nb = first :: rest →
  splitlines (src_text first) = l0 :: ls →
  strip l0 = "---" →
  "---" ∉ ls →
  ∃ nb' first' w',
    fix_tree nb w = Ok (nb', true, w')
    ∧ cells nb' !! 0%nat = Some first'
    ∧ source first'
      = Some (SrcStr (join newline (normalize_front_matter_lines (l0 :: ls))))
    ∧ normalize_front_matter_lines (l0 :: ls) = l0 :: normalize_front_matter_lines ls
    ∧ length (normalize_front_matter_lines ls) = length ls
    ∧ ("---" ∉ normalize_front_matter_lines ls)
    ∧ ∀ path, nbformat_read path w = Ok nb →
        ∃ w'', fix_notebook path w = Ok w''
          ∧ (write_errors w !! path = None →
             fs w'' !! path = Some (NotebookFile nb')
             ∧ Wrote path nb' ∈ events w'').
Proof.
  intros Hc Hs H0 Hls.
  destruct (fix_tree_first nb w first rest Hc) as (c' & cs' & w' & E & Hx & _).
  destruct (rewritten_unclosed _ _ _ Hs H0 Hls) as [Hd Hr].
  assert (flagged nb = true) as Hf.
  { unfold flagged. rewrite Hc, Hd. apply orb_true_r. }
  rewrite Hf in E. rewrite <- Hx in Hd, Hr.
  destruct (front_detected c' Hd) as [Hsrc _].
  exists (set_cells nb (front c' :: cs')), (front c'), w'.
  split; [exact E|]. split; [done|]. split; [by rewrite Hsrc, Hr|].
  split. { rewrite !normalize_front_matter_lines_map. simpl.
           by rewrite normalize_delimiter. }
  split; [apply normalize_front_matter_lines_length|].
  split; [by apply normalize_keeps_open|].
  intros path Hrd. by eapply fix_notebook_flagged.
Qed.

(** C8 at the source [---], newline, [title: X]. *)
Lemma unclosed_front_matter_witness :
  ∃ nb' first' w',
    fix_tree unclosed_notebook (world_with "draft.ipynb" (NotebookFile unclosed_notebook))
    = Ok (nb', true, w')
    ∧ cells nb' !! 0%nat = Some first'
    ∧ source first'
      = Some (SrcStr (join newline (normalize_front_matter_lines ["---"; "title: X"])))
    ∧ normalize_front_matter_lines ["---"; "title: X"]
      = "---" :: normalize_front_matter_lines ["title: X"]
    ∧ length (normalize_front_matter_lines ["title: X"]) = length ["title: X"]
    ∧ ("---" ∉ normalize_front_matter_lines ["title: X"])
    ∧ ∀ path,
        nbformat_read path (world_with "draft.ipynb" (NotebookFile unclosed_notebook))
        = Ok unclosed_notebook →
        ∃ w'',
          fix_notebook path (world_with "draft.ipynb" (NotebookFile unclosed_notebook))
          = Ok w''
          ∧ (write_errors (world_with "draft.ipynb" (NotebookFile unclosed_notebook)) !! path
             = None →
             fs w'' !! path = Some (NotebookFile nb')
             ∧ Wrote path nb' ∈ events w'').
Proof.
  apply (unclosed_front_matter_fallback unclosed_notebook
           (world_with "draft.ipynb" (NotebookFile unclosed_notebook))
           _ _ "---" ["title: X"] eq_refl eq_refl eq_refl).
  intros H. apply list_elem_of_singleton in H. discriminate H.
Defined.

(** ** Trailing newlines *)

Lemma normalized_last (lines : list string) :
  last (normalize_front_matter_lines lines) = Some "" → last lines = Some "".
Proof.
  rewrite normalize_front_matter_lines_map, fmap_last.
  destruct (last lines) as [l|]; [|done]. simpl.
  intros [= E]. apply normalize_line_empty in E. by subst l.
Qed.

Lemma headed_last (lines : list string) :
  last (headed_lines lines) = Some "" → last lines = Some "".
Proof.
  unfold headed_lines. rewrite <- (take_drop 6 lines) at 3.
  rewrite !last_app. destruct (last (drop 6 lines)); [done|].
  apply normalized_last.
Qed.

Lemma headed_one_line (lines : list string) :
  Forall (λ l, one_line l = true) lines →
  Forall (λ l, one_line l = true) (headed_lines lines).
Proof.
  intros H. apply Forall_app. split.
  - by apply normalize_front_matter_lines_one_line, Forall_take.
  - by apply Forall_drop.
Qed.

Lemma headed_nil (lines : list string) : headed_lines lines = [] → lines = [].
Proof.
  unfold headed_lines. intros [H1 H2]%app_eq_nil.
  apply (f_equal length) in H1. rewrite normalize_front_matter_lines_length in H1.
  apply nil_length_inv in H1. rewrite <- (take_drop 6 lines). by rewrite H1, H2.
Qed.

(** Claim C10 (trailing newline): on a detected first cell, the source
    assigned is, without a closing delimiter, the normalized lines joined by
    newlines, and, without an opening delimiter, the first six lines
    normalized and the others, joined by newlines.  In both cases it is the
    text of these lines, each ended by a newline, less the last newline; it
    does not end with a newline unless the last line of the source is empty,
    whatever the source ended with.  With a closed block a newline is added
    after the joined lines when the source ended with one, and the new
    source then ends with a newline. *)
Theorem fallback_paths_drop_trailing_newline (first : cell) (changed : bool) :
  let text := src_text first in
  let lines := splitlines text in
  detected text = true →
  ∃ first' s,
    fix_front_matter first changed = Ok (first', true)
    ∧ source first' = Some (SrcStr s)
    ∧ (opens_block lines = true → closing lines = None →
       s = join newline (normalize_front_matter_lines lines)
       ∧ s +:+ newline = unlines (normalize_front_matter_lines lines)
       ∧ (last lines ≠ Some "" → endswith s newline = false))
    ∧ (opens_block lines = false →
       s = join newline (headed_lines lines)
       ∧ (lines ≠ [] → s +:+ newline = unlines (headed_lines lines))
       ∧ (last lines ≠ Some "" → endswith s newline = false))
    ∧ (opens_block lines = true → ∀ end_, closing lines = Some end_ →
       s = join newline (closed_lines lines end_)
           +:+ (if endswith text newline then newline else "")
       ∧ (endswith text newline = true →
          s = unlines (closed_lines lines end_) ∧ endswith s newline = true)).
Proof.
  intros text lines Hd.
  pose proof (splitlines_one_line text) as Hone. fold lines in Hone.
  rewrite fix_front_matter_eq. fold text. rewrite Hd.
  destruct (front_detected first Hd) as [Hs _]. fold text in Hs.
  exists (front first), (rewritten text). split; [done|]. split; [done|].
  unfold rewritten. fold lines.
  split; [|split].
  - intros Ho Hc. rewrite Ho, Hc. unfold unclosed_source.
    split; [done|]. split.
    + apply join_unlines. intros E.
      apply (f_equal length) in E.
      rewrite normalize_front_matter_lines_length in E.
      apply nil_length_inv in E. rewrite E in Ho. done.
    + intros Hl. apply endswith_join.
      * by apply normalize_front_matter_lines_one_line.
      * intros E. by apply normalized_last in E.
  - intros Ho. rewrite Ho. unfold headed_source. split; [done|]. split.
    + intros Hne. apply join_unlines. intros E. by apply headed_nil in E.
    + intros Hl. apply endswith_join.
      * by apply headed_one_line.
      * intros E. by apply headed_last in E.
  - intros Ho e Hc. rewrite Ho, Hc. unfold closed_source. split; [done|].
    intros ->. split; [|apply endswith_app].
    by apply join_unlines.
Qed.

(** C10 at a source that opens a block, never closes it and ends with a
    newline. *)
Lemma fallback_paths_witness :
  let text := src_text dangling_cell in
  let lines := splitlines text in
  ∃ first' s,
    fix_front_matter dangling_cell false = Ok (first', true)
    ∧ source first' = Some (SrcStr s)
    ∧ (opens_block lines = true → closing lines = None →
       s = join newline (normalize_front_matter_lines lines)
       ∧ s +:+ newline = unlines (normalize_front_matter_lines lines)
       ∧ (last lines ≠ Some "" → endswith s newline = false))
    ∧ (opens_block lines = false →
       s = join newline (headed_lines lines)
       ∧ (lines ≠ [] → s +:+ newline = unlines (headed_lines lines))
       ∧ (last lines ≠ Some "" → endswith s newline = false))
    ∧ (opens_block lines = true → ∀ end_, closing lines = Some end_ →
       s = join newline (closed_lines lines end_)
           +:+ (if endswith text newline then newline else "")
       ∧ (endswith text newline = true →
          s = unlines (closed_lines lines end_) ∧ endswith s newline = true)).
Proof.
  exact (fallback_paths_drop_trailing_newline dangling_cell false eq_refl).
Defined.

(** ** A second run *)

Lemma drop_past (x y : string) (F R : list string) :
  drop (S (length F) + 1) (x :: F ++ y :: R) = R.
Proof.
  replace (S (length F) + 1)%nat with (S (S (length F))) by lia.
  change (drop (S (S (length F))) (x :: F ++ y :: R))
    with (drop (S (length F)) (F ++ y :: R)).
  induction F as [|z F IH]; [done|exact IH].
Qed.

Lemma closed_lines_eq (l0 : string) (F R : list string) :
  closed_lines (l0 :: F ++ "---" :: R) (S (length F))
  = "---" :: normalize_front_matter_lines F ++ "---" :: R.
Proof.
  unfold closed_lines, slice. rewrite drop_past.
  change (drop 1 (l0 :: F ++ "---" :: R)) with (F ++ "---" :: R).
  replace (S (length F) - 1)%nat with (length F) by lia.
  by rewrite take_app_length.
Qed.

Lemma closed_reread (F R : list string) :
  "---" ∉ F →
  opens_block ("---" :: F ++ "---" :: R) = true
  ∧ closing ("---" :: F ++ "---" :: R) = Some (S (length F)).
Proof.
  intros HF. split; [done|].
  unfold closing. change (drop 1 ("---" :: F ++ "---" :: R)) with (F ++ "---" :: R).
  apply find_from_Some. by exists F, R.
Qed.

Lemma closed_shape (lines : list string) (e : nat) :
  opens_block lines = true → closing lines = Some e →
  ∃ l0 fm rest,
    lines = l0 :: fm ++ "---" :: rest ∧ ("---" ∉ fm)
    ∧ closed_lines lines e = "---" :: normalize_front_matter_lines fm ++ "---" :: rest.
Proof.
  destruct lines as [|l0 ls]; [done|]. intros _ Hc. unfold closing in Hc.
  change (drop 1 (l0 :: ls)) with ls in Hc.
  apply find_from_Some in Hc as (a & b & -> & Ha & ->).
  exists l0, a, b. split; [done|]. split; [done|]. apply closed_lines_eq.
Qed.

Lemma trim_last_id (L : list string) : last L ≠ Some "" → trim_last L = L.
Proof. intros H. unfold trim_last. by rewrite bool_decide_eq_false_2. Qed.

(** Splitting the text that was put together gives back its lines, up to a
    last empty line, and putting them together again gives back the text. *)
Lemma resplit (L : list string) (b : bool) :
  Forall (λ l, one_line l = true) L → (2 ≤ length L)%nat →
  let s := join newline L +:+ (if b then newline else "") in
  (splitlines s = L ∨ L = splitlines s ++ [""])
  ∧ join newline (splitlines s) +:+ (if endswith s newline then newline else "") = s.
Proof.
  intros HL Hlen s. subst s. destruct b.
  - rewrite splitlines_join_nl; [|done|intros ->; simpl in Hlen; lia].
    split; [by left|]. by rewrite endswith_app.
  - rewrite append_nil_r, splitlines_join by done.
    destruct (decide (last L = Some "")) as [Hl|Hl].
    + unfold trim_last. rewrite bool_decide_eq_true_2 by done.
      apply last_Some in Hl as [L' ->]. rewrite removelast_last.
      split; [by right|].
      assert (L' ≠ []) as Hne.
      { intros ->. simpl in Hlen. lia. }
      rewrite join_snoc by done. by rewrite endswith_app.
    + rewrite trim_last_id by done. split; [by left|].
      by rewrite endswith_join, append_nil_r.
Qed.

(** A text whose lines are a closed block that is normalized already, and
    that its lines give back, is left as it is. *)
Lemma closed_fixpoint (F R : list string) (s : string) :
  "---" ∉ F →
  normalize_front_matter_lines F = F →
  splitlines s = "---" :: F ++ "---" :: R →
  join newline (splitlines s) +:+ (if endswith s newline then newline else "") = s →
  detected s = true ∧ rewritten s = s.
Proof.
  intros HF HN Hs Hj. destruct (closed_reread F R HF) as [Ho Hc].
  split; [apply opens_detected; by rewrite Hs|].
  unfold rewritten. rewrite Hs, Ho, Hc. unfold closed_source.
  rewrite closed_lines_eq, HN. by rewrite <- Hs.
Qed.

Lemma rewritten_closed_stable (text : string) (e : nat) :
  opens_block (splitlines text) = true →
  closing (splitlines text) = Some e →
  detected (rewritten text) = true ∧ rewritten (rewritten text) = rewritten text.
Proof.
  intros Ho Hc. pose proof (splitlines_one_line text) as Hone.
  destruct (closed_shape _ _ Ho Hc) as (l0 & fm & rest & El & Hfm & Ecl).
  assert (rewritten text = closed_source text (splitlines text) e) as ->.
  { unfold rewritten. by rewrite Ho, Hc. }
  unfold closed_source. rewrite Ecl.
  set (F := normalize_front_matter_lines fm).
  set (L1 := "---" :: F ++ "---" :: rest).
  set (b := endswith text newline).
  rewrite El in Hone.
  apply Forall_cons in Hone as [_ Hone]. apply Forall_app in Hone as [H1 H2].
  apply Forall_cons in H2 as [_ H2].
  assert (Forall (λ l, one_line l = true) L1) as HL1.
  { apply Forall_cons. split; [done|]. apply Forall_app. split.
    - by apply normalize_front_matter_lines_one_line.
    - by apply Forall_cons. }
  assert (2 ≤ length L1)%nat as Hlen.
  { unfold L1. simpl. rewrite length_app. simpl. lia. }
  destruct (resplit L1 b HL1 Hlen) as [Hsp Hj].
  assert ("---" ∉ F) as HF by (by apply normalize_keeps_open).
  assert (normalize_front_matter_lines F = F) as HN
    by apply normalize_front_matter_lines_idem.
  destruct Hsp as [Hsp|Hsp].
  - by apply (closed_fixpoint F rest).
  - set (s := join newline L1 +:+ (if b then newline else "")) in *.
    destruct (decide (rest = [])) as [->|Hne].
    + exfalso. unfold L1 in Hsp.
      change ("---" :: F ++ ["---"]) with (("---" :: F) ++ ["---"]) in Hsp.
      by apply app_inj_tail in Hsp as [_ ?].
    + destruct (last rest) as [x|] eqn:Hl; [|by apply last_None in Hl].
      apply last_Some in Hl as [R ->].
      unfold L1 in Hsp.
      change ("---" :: F ++ "---" :: R ++ [x])
        with (("---" :: F) ++ ("---" :: R) ++ [x]) in Hsp.
      rewrite List.app_assoc in Hsp.
      apply app_inj_tail in Hsp as [Hsp _].
      apply (closed_fixpoint F R); [done|done| |done].
      by rewrite <- Hsp.
Qed.

Lemma rewritten_unclosed_stable (text : string) :
  opens_block (splitlines text) = true →
  closing (splitlines text) = None →
  last (splitlines text) ≠ Some "" →
  detected (rewritten text) = true ∧ rewritten (rewritten text) = rewritten text.
Proof.
  intros Ho Hc Hl. pose proof (splitlines_one_line text) as Hone.
  assert (rewritten text = unclosed_source (splitlines text)) as ->.
  { unfold rewritten. by rewrite Ho, Hc. }
  unfold unclosed_source.
  destruct (splitlines text) as [|l0 ls] eqn:Hs; [done|].
  simpl in Ho. apply bool_decide_eq_true in Ho.
  unfold closing in Hc. change (drop 1 (l0 :: ls)) with ls in Hc.
  apply find_from_None in Hc.
  assert (normalize_front_matter_lines (l0 :: ls)
          = l0 :: normalize_front_matter_lines ls) as EN.
  { rewrite !normalize_front_matter_lines_map. simpl.
    by rewrite normalize_delimiter. }
  assert (splitlines (join newline (normalize_front_matter_lines (l0 :: ls)))
          = normalize_front_matter_lines (l0 :: ls)) as Hsp.
  { rewrite splitlines_join by (by apply normalize_front_matter_lines_one_line).
    apply trim_last_id. intros E. by apply normalized_last in E. }
  rewrite EN in Hsp |- *.
  destruct (rewritten_unclosed _ _ _ Hsp Ho (normalize_keeps_open ls Hc)) as [Hd Hr].
  split; [done|]. rewrite Hr. f_equal. rewrite <- EN.
  apply normalize_front_matter_lines_idem.
Qed.

Lemma headed_headed (lines : list string) :
  headed_lines (headed_lines lines) = headed_lines lines.
Proof.
  unfold headed_lines at 2 3.
  set (A := normalize_front_matter_lines (take 6 lines)).
  destruct (decide (6 ≤ length lines)%nat) as [Hlen|Hlen].
  - assert (6%nat = length A) as HA.
    { unfold A. rewrite normalize_front_matter_lines_length, length_take. lia. }
    unfold headed_lines. rewrite take_app_length'; [|exact HA].
    rewrite drop_app_length'; [|exact HA].
    unfold A. by rewrite normalize_front_matter_lines_idem.
  - rewrite (drop_ge lines 6) by lia. rewrite List.app_nil_r.
    assert (length A ≤ 6)%nat as HA.
    { unfold A. rewrite normalize_front_matter_lines_length, length_take. lia. }
    unfold headed_lines. rewrite take_ge; [|exact HA].
    rewrite drop_ge; [|exact HA]. rewrite List.app_nil_r.
    unfold A. by rewrite normalize_front_matter_lines_idem.
Qed.

Lemma headed_opens (lines : list string) :
  opens_block lines = false → opens_block (headed_lines lines) = false.
Proof.
  destruct lines as [|l0 ls]; [done|]. unfold headed_lines.
  change (take 6 (l0 :: ls)) with (l0 :: take 5 ls).
  rewrite normalize_front_matter_lines_map. simpl.
  intros H%bool_decide_eq_false. apply bool_decide_eq_false.
  intros E. by apply normalize_line_strip in E.
Qed.

Lemma rewritten_headed_stable (text : string) :
  opens_block (splitlines text) = false →
  last (splitlines text) ≠ Some "" →
  detected (rewritten text) = true →
  rewritten (rewritten text) = rewritten text.
Proof.
  intros Ho Hl. pose proof (splitlines_one_line text) as Hone.
  assert (rewritten text = headed_source (splitlines text)) as ->.
  { unfold rewritten. by rewrite Ho. }
  unfold headed_source. set (H := headed_lines (splitlines text)).
  assert (splitlines (join newline H) = H) as Hsp.
  { rewrite splitlines_join by (by apply headed_one_line).
    apply trim_last_id. intros E. by apply headed_last in E. }
  intros _. unfold rewritten. rewrite Hsp. unfold H at 1.
  rewrite headed_opens by done. unfold headed_source, H.
  by rewrite headed_headed.
Qed.

Lemma src_text_set_source (c : cell) (s : string) : src_text (set_source c s) = s.
Proof. done. Qed.

Lemma retag_markdown (c : cell) : cell_type c = Some "markdown" → retag c = c.
Proof.
  intros H. unfold retag. rewrite bool_decide_eq_false_2; [done|].
  intros Hn. by apply Hn.
Qed.

Lemma front_type (c : cell) : cell_type (front (front c)) = cell_type (front c).
Proof.
  destruct (detected (src_text c)) eqn:Hd.
  - destruct (front_detected c Hd) as [_ Ht].
    unfold front at 1. destruct (detected (src_text (front c))); [|done].
    by rewrite retag_markdown.
  - assert (front c = c) as E by (unfold front; by rewrite Hd).
    by rewrite !E.
Qed.

Lemma all_have_ids (cs : list cell) :
  (∀ c, c ∈ cs → has_id c) → existsb lacks_id cs = false.
Proof.
  induction cs as [|c cs IH]; intros H; simpl; [done|].
  rewrite IH by (intros x Hx; apply H; by right).
  rewrite orb_false_r. apply lacks_id_false, H. left.
Qed.

(** ** The pattern and the backtracking search *)

Lemma splits_elem (p : ascii → bool) (s a b : string) :
  (a, b) ∈ splits p s → s = a +:+ b ∧ all_chars p a = true.
Proof.
  revert a b; induction s as [|c s IH]; intros a b; simpl.
  - intros [= -> ->]%list_elem_of_singleton. done.
  - intros [H|H]%elem_of_app.
    + destruct (p c) eqn:Hc; [|by apply elem_of_nil in H].
      apply list_elem_of_fmap in H as ([a' b'] & [= -> ->] & H).
      destruct (IH a' b' H) as [-> Ha]. simpl. by rewrite Hc.
    + apply list_elem_of_singleton in H as [= -> ->]. done.
Qed.

(** The first split is the longest run; every other one leaves a character
    of the class in front of the rest. *)
Lemma splits_span (p : ascii → bool) (s : string) :
  ∃ T, splits p s = span p s :: T
    ∧ Forall (λ ab, ∃ c t, ab.2 = String c t ∧ p c = true) T.
Proof.
  induction s as [|c s (T & E & HT)]; simpl.
  - by exists [].
  - destruct (p c) eqn:Hc.
    + rewrite E. destruct (span p s) as [a0 b0]. simpl.
      eexists. split; [done|]. apply Forall_app. split.
      * apply Forall_fmap. eapply Forall_impl; [exact HT|]. by intros [a b].
      * apply Forall_singleton. by exists c, s.
    + by exists [].
Qed.

Lemma bind_nil_elem {A B} (f : A → list B) (l : list A) :
  (∀ x, x ∈ l → f x = []) → l ≫= f = [].
Proof.
  induction l as [|x l IH]; intros H; [done|].
  rewrite bind_cons, (H x) by left. simpl. apply IH. intros y Hy. apply H. by right.
Qed.

Lemma span_lstrip (s : string) : (span isspace s).2 = lstrip s.
Proof.
  induction s as [|c s IH]; simpl; [done|].
  destruct (isspace c); [|done]. by destruct (span isspace s).
Qed.

Lemma one_newline (P v t : string) :
  P +:+ newline +:+ t = v +:+ newline → has LF v = false → t = "".
Proof.
  revert v; induction P as [|c P IH]; intros v; simpl.
  - destruct v as [|d v]; simpl; [by intros [= ->]|].
    intros [= <- _] H. cbn [has] in H.
    by rewrite bool_decide_eq_true_2 in H.
  - destruct v as [|d v]; simpl.
    + intros [= _ H]. destruct P; done.
    + intros [= _ H] [_ Hv]%orb_false_iff. by apply (IH v).
Qed.

Lemma re_dot_no_LF (v : string) : all_chars re_dot v = true → has LF v = false.
Proof.
  induction v as [|c v IH]; simpl; [done|].
  intros [Hc Hv]%andb_true_iff. rewrite IH, orb_false_r by done.
  unfold re_dot in Hc. by apply negb_true_iff in Hc.
Qed.

(** When the longest runs do not reach the end, no shorter ones do. *)
Lemma no_shorter_match (r2 w r3 v r4 : string) :
  at_end (span re_dot (lstrip r2)).2 = false →
  (w, r3) ∈ splits isspace r2 → (v, r4) ∈ splits re_dot r3 →
  at_end r4 = false.
Proof.
  intros Hend [-> Hw]%splits_elem [-> Hv]%splits_elem.
  rewrite lstrip_app_spaces in Hend by done.
  destruct (lstrip_split (v +:+ r4)) as (a & Ea & _).
  destruct (span_eq re_dot (lstrip (v +:+ r4))) as (Es & _ & Hs).
  destruct (span re_dot (lstrip (v +:+ r4))) as [v0 t0]. simpl in *.
  apply orb_false_iff in Hend as [H1 H2].
  apply bool_decide_eq_false in H1, H2.
  destruct t0 as [|c t]; [done|].
  assert (c = LF) as ->.
  { specialize (Hs c t eq_refl). unfold re_dot in Hs.
    apply negb_false_iff, bool_decide_eq_true in Hs. done. }
  assert (t ≠ "") as Ht by (intros ->; by apply H2).
  apply re_dot_no_LF in Hv.
  rewrite Es in Ea.
  apply orb_false_iff. split; apply bool_decide_eq_false; intros ->.
  - rewrite append_nil_r in Ea. rewrite Ea, !has_app in Hv. cbn [has] in Hv.
    rewrite bool_decide_eq_true_2 in Hv by done.
    by rewrite ?orb_true_l, ?orb_true_r in Hv.
  - apply Ht. apply (one_newline (a +:+ v0) v); [|done].
    rewrite append_assoc. symmetry. exact Ea.
Qed.

(** Extra X1: [FRONT_MATTER_KEY_RE], which takes the longest runs and never
    gives a character back, reports the first match the backtracking search
    for the pattern of line 36 finds, and no match when the search finds
    none. *)
Theorem pattern_is_first_match (line : string) :
  FRONT_MATTER_KEY_RE line = head (match_search line).
Proof.
  unfold FRONT_MATTER_KEY_RE, match_search.
  destruct (splits_span is_key_char line) as (T & -> & HT).
  rewrite bind_cons.
  rewrite (bind_nil_elem _ T), List.app_nil_r.
  2:{ intros [k r] Hx. rewrite Forall_forall in HT.
      destruct (HT _ Hx) as (c & t & E & Hc). simpl in *. rewrite E.
      case_bool_decide; [done|]. case_bool_decide; [subst c; done|done]. }
  destruct (span is_key_char line) as [key rest]. simpl.
  destruct key as [|k0 key]; [done|].
  rewrite bool_decide_eq_false_2 by done.
  destruct rest as [|c r2]; [done|].
  case_bool_decide; [|done].
  destruct (splits_span isspace r2) as (Tw & Ew & _).
  destruct (splits_span re_dot (lstrip r2)) as (Tv & Ev & _).
  destruct (at_end (span re_dot (lstrip r2)).2) eqn:Hend.
  - rewrite Ew, bind_cons, span_lstrip, Ev, bind_cons.
    destruct (span re_dot (lstrip r2)) as [v t]. simpl in *.
    rewrite Hend. unfold at_end in Hend. by rewrite Hend.
  - rewrite bind_nil_elem.
    + destruct (span re_dot (lstrip r2)) as [v t]. simpl in *.
      unfold at_end in Hend. by rewrite Hend.
    + intros [w r3] Hw. apply bind_nil_elem. intros [v r4] Hv. simpl in *.
      by rewrite (no_shorter_match r2 w r3 v r4 Hend Hw Hv).
Qed.

(** ** splitlines and the loop *)

Lemma splitlines_unfold (c : ascii) (s : string) :
  splitlines (String c s)
  = if islinebreak c then
      if bool_decide (c = "013"%char) && startswith s newline
      then splitlines s else "" :: splitlines s
    else match splitlines s with
         | [] => [String c ""]
         | l :: ls => String c l :: ls
         end.
Proof. reflexivity. Qed.

Lemma span_unfold (p : ascii → bool) (c : ascii) (s : string) :
  span p (String c s)
  = if p c then (String c (span p s).1, (span p s).2) else ("", String c s).
Proof. simpl. destruct (p c); [|done]. by destruct (span p s). Qed.

Lemma splitlines_round (c : ascii) (s : string) :
  splitlines (String c s)
  = (span (λ c, negb (islinebreak c)) (String c s)).1
    :: splitlines (after_break (span (λ c, negb (islinebreak c)) (String c s)).2).
Proof.
  revert c; induction s as [|d s IH]; intros c.
  - rewrite splitlines_unfold, span_unfold.
    destruct (islinebreak c); simpl; [|done]. by rewrite !andb_false_r.
  - rewrite (splitlines_unfold c), (span_unfold _ c).
    destruct (islinebreak c) eqn:Hc; cbn [negb fst snd].
    + cbn [after_break].
      destruct (bool_decide (c = "013"%char) && startswith (String d s) newline) eqn:Hcr;
        [|done].
      apply andb_true_iff in Hcr as [_ Hd]. unfold newline in Hd.
      rewrite startswith_cons in Hd. apply andb_true_iff in Hd as [Hd _].
      apply bool_decide_eq_true in Hd. subst d.
      rewrite splitlines_unfold. change (islinebreak LF) with true.
      by rewrite (bool_decide_eq_false_2 (LF = "013"%char)).
    + by rewrite (IH d).
Qed.

Lemma after_break_length (rest : string) :
  (String.length (after_break rest) ≤ String.length rest)%nat.
Proof.
  destruct rest as [|c r]; simpl; [done|].
  destruct (_ && _); [|lia]. destruct r; simpl; lia.
Qed.

Lemma span_length (p : ascii → bool) (s : string) :
  (String.length (span p s).2 ≤ String.length s)%nat.
Proof.
  induction s as [|c s IH]; simpl; [done|].
  destruct (p c); [|done]. destruct (span p s). simpl in *. lia.
Qed.

Lemma round_shorter (c : ascii) (s : string) :
  (String.length (after_break (span (λ c, negb (islinebreak c)) (String c s)).2)
   ≤ String.length s)%nat.
Proof.
  rewrite span_unfold. destruct (islinebreak c) eqn:Hc; cbn [negb snd].
  - cbn [after_break]. destruct (_ && _); [|done].
    destruct s; simpl; lia.
  - pose proof (span_length (λ c, negb (islinebreak c)) s) as H1.
    pose proof (after_break_length (span (λ c, negb (islinebreak c)) s).2). lia.
Qed.

Lemma splitlines_loop_fuel (fuel : nat) (s : string) :
  (String.length s ≤ fuel)%nat → splitlines s = splitlines_loop fuel s.
Proof.
  revert s; induction fuel as [|fuel IH]; intros s Hlen.
  - destruct s; [done|simpl in Hlen; lia].
  - destruct s as [|c s]; [done|].
    rewrite splitlines_round. cbn [splitlines_loop].
    pose proof (round_shorter c s) as Hr.
    destruct (span _ (String c s)) as [a b]. cbn [fst snd] in *.
    f_equal. apply IH. simpl in Hlen. lia.
Qed.

(** [splitlines], as the embedding defines it by recursion on the
    text, returns the lines CPython's loop collects. *)
Theorem splitlines_is_loop (s : string) :
  splitlines s = splitlines_loop (String.length s) s.
Proof. by apply splitlines_loop_fuel. Qed.

(** ** More properties of the script *)

(** Extra X3: normalizing lines that were normalized, or quoting a value
    that was quoted, changes nothing, and the normalizer returns as many
    lines as it was given. *)
Theorem normalizer_idempotent (lines : list string) (val : string) :
  normalize_front_matter_lines (normalize_front_matter_lines lines)
  = normalize_front_matter_lines lines
  ∧ length (normalize_front_matter_lines lines) = length lines
  ∧ quote_value (quote_value val) = quote_value val.
Proof.
  split; [apply normalize_front_matter_lines_idem|].
  split; [apply normalize_front_matter_lines_length|apply quote_value_idem].
Qed.

(** Extra X4: the normalizer keeps every line at its place and never
    changes a key.  A line that does not match the pattern is emitted as it
    is; a line that matches is emitted as a line that matches with the same
    key, and as it is when its key is none of [comments], [title] and
    [description] and its value holds no colon. *)
Theorem normalizer_keeps_keys (lines : list string) (i : nat) (line : string) :
  lines !! i = Some line →
  ∃ line', normalize_front_matter_lines lines !! i = Some line'
    ∧ (FRONT_MATTER_KEY_RE line = None → line' = line)
    ∧ ∀ key val,
        FRONT_MATTER_KEY_RE line = Some (key, val) →
        (∃ val', FRONT_MATTER_KEY_RE line' = Some (key, val'))
        ∧ (lower key ∉ ["comments"; "title"; "description"] →
           has ":" val = false → line' = line).
Proof.
  intros Hi. exists (normalize_line line).
  split; [by rewrite normalize_front_matter_lines_lookup, Hi|].
  split; [intros H; unfold normalize_line; by rewrite H|].
  intros key val Hm. split.
  - destruct (normalize_line_cases line) as [E|(k & v & q & Hm' & E & Hq & _)].
    + rewrite E. by exists val.
    + rewrite Hm in Hm'. injection Hm' as <- <-. rewrite E. by exists q.
  - intros Hk Hv. unfold normalize_line. rewrite Hm.
    rewrite bool_decide_eq_false_2.
    + rewrite contains_char, Hv, orb_false_r.
      destruct (list_in (lower key) ["title"; "description"]) eqn:Hl; [|done].
      apply list_in_true in Hl. exfalso. apply Hk. by right.
    + intros E. apply Hk. rewrite E. left.
Qed.

(** X4 at the second of two lines. *)
Lemma normalizer_keeps_keys_witness :
  ∃ line', normalize_front_matter_lines ["layout: post"; "title: a: b"] !! 1%nat
           = Some line'
    ∧ (FRONT_MATTER_KEY_RE "title: a: b" = None → line' = "title: a: b")
    ∧ ∀ key val,
        FRONT_MATTER_KEY_RE "title: a: b" = Some (key, val) →
        (∃ val', FRONT_MATTER_KEY_RE line' = Some (key, val'))
        ∧ (lower key ∉ ["comments"; "title"; "description"] →
           has ":" val = false → line' = "title: a: b").
Proof.
  exact (normalizer_keeps_keys ["layout: post"; "title: a: b"] 1 "title: a: b" eq_refl).
Defined.

(** Extra X5: the value of a [title] or [description] line that holds a
    colon and is not between quotes already is emitted between double
    quotes, with its double quotes escaped; a value between quotes already
    is emitted as it is, stripped. *)
Theorem quoting_safety (line key val : string) :
  FRONT_MATTER_KEY_RE line = Some (key, val) →
  lower key ∈ ["title"; "description"] →
  has ":" val = true →
  normalize_line line
  = key +:+ ": "
    +:+ (if (startswith (strip val) dquote && endswith (strip val) dquote)
            || (startswith (strip val) squote && endswith (strip val) squote)
         then strip val
         else dquote +:+ escape_dquotes (strip val) +:+ dquote).
Proof.
  intros Hm Hk Hv. unfold normalize_line. rewrite Hm.
  assert (lower key ≠ "comments") as Hc.
  { intros E. rewrite E in Hk.
    apply elem_of_cons in Hk as [Hk|Hk]; [done|].
    apply elem_of_cons in Hk as [Hk|Hk]; [done|]. by apply elem_of_nil in Hk. }
  rewrite (bool_decide_eq_false_2 _ Hc).
  apply list_in_true in Hk. rewrite Hk. cbn [orb]. f_equal. f_equal.
  unfold quote_value. rewrite replace_escape.
  set (v := strip val).
  destruct (startswith v dquote && endswith v dquote
            || startswith v squote && endswith v squote); [done|].
  assert (has ":" v = true) as Hv' by (unfold v; by rewrite has_strip).
  destruct (list_in (lower v) ["true"; "false"; "null"]) eqn:Hl.
  { apply list_in_true in Hl. exfalso.
    assert (has ":" (lower v) = true) as H by (rewrite has_lower; [done|by right; left]).
    apply elem_of_cons in Hl as [E|Hl]; [by rewrite E in H|].
    apply elem_of_cons in Hl as [E|Hl]; [by rewrite E in H|].
    apply elem_of_cons in Hl as [E|Hl]; [by rewrite E in H|].
    by apply elem_of_nil in Hl. }
  by rewrite contains_char, Hv'.
Qed.

(** X5 at [title: My: Post]. *)
Lemma quoting_safety_witness :
  normalize_line "title: My: Post"
  = "title" +:+ ": " +:+ (dquote +:+ escape_dquotes "My: Post" +:+ dquote).
Proof.
  apply (quoting_safety "title: My: Post" "title" "My: Post" eq_refl);
    [left|reflexivity].
Defined.

(** X5 at a value that is quoted already. *)
Lemma quoting_safety_quoted :
  normalize_line ("title: " +:+ dquote +:+ "Already: quoted" +:+ dquote)
  = "title: " +:+ dquote +:+ "Already: quoted" +:+ dquote.
Proof. by vm_compute. Qed.

(** Extra X6: the value [quote_value] returns has no white space at its
    ends, and it is between quotes, or one of [true], [false] and [null],
    or free of colons and newlines and not started by [#]: a value with a
    colon always comes out between quotes. *)
Theorem quote_value_safe (val : string) :
  strip (quote_value val) = quote_value val
  ∧ ((startswith (quote_value val) dquote && endswith (quote_value val) dquote)
     || (startswith (quote_value val) squote && endswith (quote_value val) squote)
     = true
     ∨ quote_value val ∈ ["true"; "false"; "null"]
     ∨ (has ":" (quote_value val) = false ∧ has LF (quote_value val) = false
        ∧ startswith (quote_value val) "#" = false)).
Proof.
  unfold quote_value. cbv zeta. rewrite replace_escape. set (v := strip val).
  assert (strip v = v) as Hv by apply strip_strip.
  destruct (startswith v dquote && endswith v dquote
            || startswith v squote && endswith v squote) eqn:Hw.
  { split; [done|]. by left. }
  destruct (list_in (lower v) ["true"; "false"; "null"]) eqn:Hl.
  { apply list_in_true in Hl. split; [|by right; left].
    apply elem_of_cons in Hl as [->|Hl]; [done|].
    apply elem_of_cons in Hl as [->|Hl]; [done|].
    apply elem_of_cons in Hl as [->|Hl]; [done|].
    by apply elem_of_nil in Hl. }
  destruct (contains ":" v || startswith v " " || endswith v " "
            || contains newline v || startswith v "#") eqn:Hs.
  - split; [apply strip_quoted|]. left.
    rewrite startswith_app. rewrite <- append_assoc, endswith_app. done.
  - split; [done|]. right; right.
    unfold newline in Hs. rewrite !contains_char in Hs.
    repeat (apply orb_false_iff in Hs as [Hs ?]). done.
Qed.

Lemma ensure_ids_all (cs : list cell) (w : world) :
  existsb lacks_id (ensure_ids cs w).1 = false.
Proof.
  revert w; induction cs as [|c cs IH]; intros w; [done|].
  cbn [ensure_ids]. destruct (lacks_id c) eqn:Hc.
  - unfold str_uuid4. set (w1 := World _ _ _ _ _). specialize (IH w1).
    destruct (ensure_ids cs w1) as [cs' w2]. cbn [fst existsb] in *.
    rewrite IH, orb_false_r. unfold lacks_id. cbn [set_id cell_id].
    apply bool_decide_eq_false, uuid_str_nonempty.
  - specialize (IH w). destruct (ensure_ids cs w) as [cs' w2].
    cbn [fst existsb] in *. by rewrite Hc, IH.
Qed.

(** Extra X7: the loop of lines 84-87 assigns the ids [ensure_cell_ids]
    assigns, from the same draws, and sets [changed] exactly when some cell
    lacked an id.  [ensure_cell_ids] keeps the other keys of the notebook,
    leaves a notebook whose cells all have ids as it is without a draw, and
    so changes nothing when it is run again on its result. *)
Theorem ensure_cell_ids_loop (nb : notebook) (w : world) :
  fix_ids (cells nb) false w
  = (cells (ensure_cell_ids nb w).1, existsb lacks_id (cells nb),
     (ensure_cell_ids nb w).2)
  ∧ nb_rest (ensure_cell_ids nb w).1 = nb_rest nb
  ∧ (existsb lacks_id (cells nb) = false → ensure_cell_ids nb w = (nb, w))
  ∧ ensure_cell_ids (ensure_cell_ids nb w).1 (ensure_cell_ids nb w).2
    = ensure_cell_ids nb w.
Proof.
  assert (∀ nb w, existsb lacks_id (cells nb) = false →
                  ensure_cell_ids nb w = (nb, w)) as Hnone.
  { intros [cs r] w0 H. unfold ensure_cell_ids. simpl in *.
    by rewrite ensure_ids_none. }
  split; [|split; [|split]].
  - rewrite fix_ids_ensure, orb_false_r. unfold ensure_cell_ids.
    by destruct (ensure_ids (cells nb) w).
  - unfold ensure_cell_ids. by destruct (ensure_ids (cells nb) w).
  - apply Hnone.
  - assert (existsb lacks_id (cells (ensure_cell_ids nb w).1) = false) as Hall.
    { unfold ensure_cell_ids. pose proof (ensure_ids_all (cells nb) w) as H.
      by destruct (ensure_ids (cells nb) w). }
    rewrite (Hnone _ _ Hall). by destruct (ensure_cell_ids nb w).
Qed.

(** Extra X8: lines 92-128 never raise and keep the [id] and the other
    keys of the first cell.  When front matter is detected, [changed] is
    set, the cell is a markdown cell and its source is a single string, also
    when it was a list of strings; when none is detected, the cell and
    [changed] are left as they were. *)
Theorem first_cell_outcome (first : cell) (changed : bool) :
  ∃ first' changed',
    fix_front_matter first changed = Ok (first', changed')
    ∧ cell_id first' = cell_id first
    ∧ cell_rest first' = cell_rest first
    ∧ (detected (src_text first) = true →
       changed' = true ∧ cell_type first' = Some "markdown"
       ∧ ∃ s, source first' = Some (SrcStr s))
    ∧ (detected (src_text first) = false → first' = first ∧ changed' = changed).
Proof.
  rewrite fix_front_matter_eq. eexists _, _. split; [done|].
  split; [apply front_id|]. split; [apply front_rest|]. split.
  - intros Hd. rewrite Hd. split; [done|].
    destruct (front_detected first Hd) as [Hs Ht]. split; [done|]. by eexists.
  - intros Hd. rewrite Hd. unfold front. by rewrite Hd.
Qed.

(** Extra X9: with an opening line and a later line [---], the lines
    between the two are normalized, the opening line becomes [---] whatever
    white space it had, the lines after the closing [---] are kept as they
    are, and a newline follows when the source ended with one. *)
Theorem closed_block_rewrite (first : cell) (changed : bool) (end_ : nat) :
  opens_block (splitlines (src_text first)) = true →
  closing (splitlines (src_text first)) = Some end_ →
  ∃ l0 fm rest first',
    splitlines (src_text first) = l0 :: fm ++ "---" :: rest
    ∧ strip l0 = "---" ∧ ("---" ∉ fm) ∧ end_ = S (length fm)
    ∧ fix_front_matter first changed = Ok (first', true)
    ∧ source first'
      = Some (SrcStr
                (join newline
                   ("---" :: normalize_front_matter_lines fm ++ "---" :: rest)
                 +:+ (if endswith (src_text first) newline then newline else ""))).
Proof.
  intros Ho Hc. pose proof (opens_detected _ Ho) as Hd.
  rewrite fix_front_matter_eq, Hd.
  destruct (front_detected first Hd) as [Hs _].
  destruct (splitlines (src_text first)) as [|l0 ls] eqn:El; [done|].
  pose proof Hc as Hc'. unfold closing in Hc'.
  change (drop 1 (l0 :: ls)) with ls in Hc'.
  apply find_from_Some in Hc' as (fm & rest & -> & Hfm & ->).
  exists l0, fm, rest, (front first).
  split; [done|]. split; [by apply bool_decide_eq_true in Ho|].
  split; [done|]. split; [done|]. split; [done|].
  rewrite Hs. unfold rewritten. rewrite El, Ho, Hc. unfold closed_source.
  by rewrite closed_lines_eq.
Qed.

Lemma closed_block_witness :
  ∃ l0 fm rest first',
    splitlines (src_text spaced_cell) = l0 :: fm ++ "---" :: rest
    ∧ strip l0 = "---" ∧ ("---" ∉ fm) ∧ 2%nat = S (length fm)
    ∧ fix_front_matter spaced_cell false = Ok (first', true)
    ∧ source first'
      = Some (SrcStr
                (join newline
                   ("---" :: normalize_front_matter_lines fm ++ "---" :: rest)
                 +:+ (if endswith (src_text spaced_cell) newline then newline else ""))).
Proof.
  exact (closed_block_rewrite spaced_cell false 2 eq_refl eq_refl).
Defined.

(** Extra X10: when front matter is detected and the first line is not an
    opening delimiter (an empty line before the [---], a first line such as
    [----], or a line [title:] among the first three), the source becomes
    the lines joined by newlines, as many as before, with the first six
    normalized and every later line as it was. *)
Theorem headed_block_rewrite (first : cell) (changed : bool) :
  detected (src_text first) = true →
  opens_block (splitlines (src_text first)) = false →
  ∃ first' new_lines,
    fix_front_matter first changed = Ok (first', true)
    ∧ source first' = Some (SrcStr (join newline new_lines))
    ∧ length new_lines = length (splitlines (src_text first))
    ∧ ∀ i line, splitlines (src_text first) !! i = Some line →
        new_lines !! i
        = Some (if bool_decide (i < 6)%nat then normalize_line line else line).
Proof.
  intros Hd Ho. rewrite fix_front_matter_eq, Hd.
  destruct (front_detected first Hd) as [Hs _].
  set (L := splitlines (src_text first)) in *.
  exists (front first), (headed_lines L).
  split; [done|]. split.
  { rewrite Hs. unfold rewritten. fold L. by rewrite Ho. }
  unfold headed_lines. split.
  - rewrite length_app, normalize_front_matter_lines_length.
    by rewrite <- length_app, take_drop.
  - intros i line Hi. case_bool_decide as Hlt.
    + rewrite lookup_app_l.
      * rewrite normalize_front_matter_lines_lookup, lookup_take_lt by done.
        by rewrite Hi.
      * rewrite normalize_front_matter_lines_length, length_take.
        apply lookup_lt_Some in Hi. lia.
    + apply lookup_lt_Some in Hi as Hlen.
      rewrite lookup_app_r;
        rewrite normalize_front_matter_lines_length, length_take; [|lia].
      rewrite lookup_drop. rewrite <- Hi. f_equal. lia.
Qed.

Lemma headed_block_witness :
  ∃ first' new_lines,
    fix_front_matter blank_led_cell false = Ok (first', true)
    ∧ source first' = Some (SrcStr (join newline new_lines))
    ∧ length new_lines = length (splitlines (src_text blank_led_cell))
    ∧ ∀ i line, splitlines (src_text blank_led_cell) !! i = Some line →
        new_lines !! i
        = Some (if bool_decide (i < 6)%nat then normalize_line line else line).
Proof.
  exact (headed_block_rewrite blank_led_cell false eq_refl eq_refl).
Defined.

(** ** What fix_notebook leaves alone *)

Lemma fix_notebook_effects (path : string) (w w' : world) :
  fix_notebook path w = Ok w' →
  write_errors w' = write_errors w
  ∧ urandom w' = urandom w
  ∧ (drawn w ≤ drawn w')%nat
  ∧ (∀ p, p ≠ path → fs w' !! p = fs w !! p)
  ∧ (∀ p, is_Some (fs w !! p) → is_Some (fs w' !! p))
  ∧ ∃ new, events w' = events w ++ new
      ∧ ((new = [] ∧ fs w' = fs w)
         ∨ (∃ l, new = [Printed l]
              ∧ (fs w' = fs w
                 ∨ ∃ partial, fs w' = <[path := OtherFile partial]> (fs w)))
         ∨ (∃ nb l, new = [Wrote path nb; Printed l]
              ∧ fs w' = <[path := NotebookFile nb]> (fs w))).
Proof.
  intros E. destruct (nbformat_read path w) as [nb|e] eqn:Hr.
  - destruct (fix_notebook_read path w nb Hr) as [_ E2].
    rewrite E in E2. injection E2 as ->.
    destruct (flagged nb).
    + destruct (write_errors w !! path) as [[e|e partial]|] eqn:Hw.
      * simpl. split; [done|]. split; [done|]. split; [lia|].
        split; [done|]. split; [done|].
        eexists. split; [done|]. right; left. eexists. split; [done|]. by left.
      * simpl. split; [done|]. split; [done|]. split; [lia|]. split; [|split].
        -- intros p Hp. by rewrite lookup_insert_ne.
        -- intros p Hp. destruct (decide (p = path)) as [->|Hne].
           ++ rewrite lookup_insert_eq. by eexists.
           ++ by rewrite lookup_insert_ne.
        -- eexists. split; [done|]. right; left. eexists. split; [done|].
           right. by eexists.
      * simpl. split; [done|]. split; [done|]. split; [lia|]. split; [|split].
        -- intros p Hp. by rewrite lookup_insert_ne.
        -- intros p Hp. destruct (decide (p = path)) as [->|Hne].
           ++ rewrite lookup_insert_eq. by eexists.
           ++ by rewrite lookup_insert_ne.
        -- eexists. split; [done|]. right; right. by eexists _, _.
    + split; [done|]. split; [done|]. split; [lia|]. split; [done|].
      split; [done|]. exists []. rewrite List.app_nil_r. split; [done|]. by left.
  - unfold fix_notebook in E. rewrite Hr in E. injection E as <-.
    split; [done|]. split; [done|]. split; [lia|]. split; [done|].
    split; [done|]. exists []. rewrite List.app_nil_r. split; [done|]. by left.
Qed.

(** Extra X11: [fix_notebook] touches no file but the one at its path and
    removes none; it leaves the entropy source and the paths that cannot be
    written as they are, and it adds to what was done before either nothing,
    the files being as they were, or one printed line, the file at its path
    being as it was or holding the unfinished text of a write that raised,
    or one write of the file at its path followed by one printed line. *)
Theorem fix_notebook_frame (path : string) (w w' : world) :
  fix_notebook path w = Ok w' →
  write_errors w' = write_errors w
  ∧ urandom w' = urandom w
  ∧ (drawn w ≤ drawn w')%nat
  ∧ (∀ p, p ≠ path → fs w' !! p = fs w !! p)
  ∧ (∀ p, is_Some (fs w !! p) → is_Some (fs w' !! p))
  ∧ ∃ new, events w' = events w ++ new
      ∧ ((new = [] ∧ fs w' = fs w)
         ∨ (∃ l, new = [Printed l]
              ∧ (fs w' = fs w
                 ∨ ∃ partial, fs w' = <[path := OtherFile partial]> (fs w)))
         ∨ (∃ nb l, new = [Wrote path nb; Printed l]
              ∧ fs w' = <[path := NotebookFile nb]> (fs w))).
Proof. apply fix_notebook_effects. Qed.

Lemma fix_notebook_frame_witness :
  ∃ w', fix_notebook "post.ipynb" (world_with "post.ipynb" (NotebookFile scenario_notebook))
        = Ok w'
    ∧ (∀ p, p ≠ "post.ipynb" →
         fs w' !! p = fs (world_with "post.ipynb" (NotebookFile scenario_notebook)) !! p)
    ∧ ∃ new, events w' = [] ++ new
        ∧ ((new = []
            ∧ fs w' = fs (world_with "post.ipynb" (NotebookFile scenario_notebook)))
           ∨ (∃ l, new = [Printed l]
                ∧ (fs w' = fs (world_with "post.ipynb" (NotebookFile scenario_notebook))
                   ∨ ∃ partial,
                       fs w' = <["post.ipynb" := OtherFile partial]>
                                 (fs (world_with "post.ipynb"
                                        (NotebookFile scenario_notebook)))))
           ∨ (∃ nb l, new = [Wrote "post.ipynb" nb; Printed l]
                ∧ fs w' = <["post.ipynb" := NotebookFile nb]>
                            (fs (world_with "post.ipynb" (NotebookFile scenario_notebook))))).
Proof.
  destruct (fix_notebook_total "post.ipynb"
              (world_with "post.ipynb" (NotebookFile scenario_notebook))) as [w' E].
  exists w'. split; [exact E|].
  destruct (fix_notebook_frame _ _ _ E) as (_ & _ & _ & H1 & _ & H2).
  split; [exact H1|exact H2].
Defined.

(** Extra X12: the loop of [main] takes the notebooks in order, so a list
    in two parts is the first part and then the second; it touches no file
    outside the list, removes none, and leaves the entropy source and the
    paths that cannot be written as they are. *)
Theorem main_loop_frame (first second : list string) (w w' : world) :
  main_loop (first ++ second) w = (w1 ← main_loop first w; main_loop second w1)
  ∧ (main_loop first w = Ok w' →
     write_errors w' = write_errors w
     ∧ urandom w' = urandom w
     ∧ (∀ p, p ∉ first → fs w' !! p = fs w !! p)
     ∧ (∀ p, is_Some (fs w !! p) → is_Some (fs w' !! p))
     ∧ ∃ new, events w' = events w ++ new ∧ (length new ≤ 2 * length first)%nat).
Proof.
  split.
  - revert w; induction first as [|p ps IH]; intros w; [done|].
    simpl. destruct (fix_notebook p w) as [w1|e]; [|done]. simpl. apply IH.
  - revert w; induction first as [|p ps IH]; intros w.
    + intros [= <-]. repeat split; try done. exists []. by rewrite List.app_nil_r.
    + simpl. destruct (fix_notebook p w) as [w1|e] eqn:E1; [|done]. simpl.
      intros E2. destruct (fix_notebook_effects _ _ _ E1)
        as (Hw & Hu & _ & Hf & Hs & new1 & Hn1 & Hl1).
      destruct (IH w1 E2) as (Hw2 & Hu2 & Hf2 & Hs2 & new2 & Hn2 & Hl2).
      split; [congruence|]. split; [congruence|]. split; [|split].
      * intros q Hq. apply not_elem_of_cons in Hq as [Hq1 Hq2].
        rewrite Hf2 by done. by apply Hf.
      * intros q Hq. by apply Hs2, Hs.
      * exists (new1 ++ new2). rewrite Hn2, Hn1, <- List.app_assoc.
        split; [done|]. rewrite length_app.
        assert (length new1 ≤ 2)%nat.
        { destruct Hl1 as [[-> _]|[(l & -> & _)|(nb & l & -> & _)]]; simpl; lia. }
        lia.
Qed.

Lemma main_loop_frame_witness :
  ∃ w',
    main_loop ["a.ipynb"] (world_with "a.ipynb" (NotebookFile bare_notebook)) = Ok w'
    ∧ (∀ p, p ∉ ["a.ipynb"] →
         fs w' !! p = fs (world_with "a.ipynb" (NotebookFile bare_notebook)) !! p)
    ∧ ∃ new, events w' = [] ++ new ∧ (length new ≤ 2 * 1)%nat.
Proof.
  destruct (main_loop_total ["a.ipynb"]
              (world_with "a.ipynb" (NotebookFile bare_notebook))) as [w' E].
  exists w'. split; [exact E|].
  destruct (main_loop_frame ["a.ipynb"] []
              (world_with "a.ipynb" (NotebookFile bare_notebook)) w') as [_ H].
  destruct (H E) as (_ & _ & H1 & _ & H2).
  split; [exact H1|exact H2].
Defined.

(** ** The tokens *)

Lemma length_append (a b : string) :
  String.length (a +:+ b) = (String.length a + String.length b)%nat.
Proof. induction a as [|c a IH]; simpl; [done|]. by rewrite IH. Qed.

Lemma hex_length (n : nat) (v : N) : String.length (hex n v) = n.
Proof.
  revert v; induction n as [|n IH]; intros v; simpl; [done|].
  rewrite length_append, IH. simpl. lia.
Qed.

Lemma hex_digit_token (d : N) : is_token_char (hex_digit (d mod 16)) = true.
Proof.
  assert (d mod 16 < 16) as H by (apply N.mod_lt; lia).
  destruct (d mod 16) as [|p]; [done|].
  do 5 (destruct p as [p|p|]; try reflexivity; try lia).
Qed.

Lemma hex_token (n : nat) (v : N) : all_chars is_token_char (hex n v) = true.
Proof.
  revert v; induction n as [|n IH]; intros v; simpl; [done|].
  rewrite all_chars_app, IH. simpl. by rewrite hex_digit_token.
Qed.

Lemma substring_length (n m : nat) (s : string) :
  (n + m ≤ String.length s)%nat → String.length (String.substring n m s) = m.
Proof.
  revert n m; induction s as [|c s IH]; intros n m H; simpl in H.
  - assert (n = 0 ∧ m = 0)%nat as [-> ->] by lia. done.
  - destruct n as [|n]; simpl.
    + destruct m as [|m]; simpl; [done|]. rewrite IH; [done|lia].
    + apply IH. lia.
Qed.

Lemma substring_chars (p : ascii → bool) (n m : nat) (s : string) :
  all_chars p s = true → all_chars p (String.substring n m s) = true.
Proof.
  revert n m; induction s as [|c s IH]; intros n m H.
  - by destruct n, m.
  - simpl in H. apply andb_true_iff in H as [Hc Hs].
    destruct n as [|n]; simpl.
    + destruct m as [|m]; simpl; [done|]. by rewrite Hc, IH.
    + by apply IH.
Qed.

Lemma tokens_well_formed (w : world) (k : nat) :
  String.length (token w k) = 36%nat
  ∧ all_chars is_token_char (token w k) = true.
Proof.
  unfold token, uuid_str. set (h := hex 32 _).
  assert (String.length h = 32%nat) as Hl by apply hex_length.
  assert (all_chars is_token_char h = true) as Hc by apply hex_token.
  split.
  - rewrite !length_append, !substring_length by (rewrite Hl; lia). done.
  - rewrite !all_chars_app, !substring_chars by done. done.
Qed.

(** Extra X13: the [id] the script gives a cell that had none, or an empty
    one, has 36 characters, all of them digits, letters from [a] to [f] or
    hyphens, whatever was drawn. *)
Theorem assigned_ids_well_formed
    (nb nb' : notebook) (w w' : world) (changed : bool) (i : nat) (c : cell) :
  fix_tree nb w = Ok (nb', changed, w') →
  cells nb !! i = Some c →
  lacks_id c = true →
  ∃ c' t, cells nb' !! i = Some c' ∧ cell_id c' = Some t
    ∧ String.length t = 36%nat ∧ all_chars is_token_char t = true.
Proof.
  intros E Hi Hc. pose proof (fix_tree_lookup _ _ _ _ _ i c E Hi) as Hl.
  simpl in Hl. rewrite Hc in Hl.
  destruct (tokens_well_formed w (count_lacking (take i (cells nb)))) as [H1 H2].
  eexists _, _. split; [exact Hl|]. split; [|by split].
  destruct (decide _); [by rewrite front_id|done].
Qed.

Lemma assigned_ids_witness :
  ∃ c' t, cells bare_fixed !! 0%nat = Some c' ∧ cell_id c' = Some t
    ∧ String.length t = 36%nat ∧ all_chars is_token_char t = true.
Proof.
  exact (assigned_ids_well_formed bare_notebook bare_fixed
           (world_with "a.ipynb" (NotebookFile bare_notebook))
           (after_draws (world_with "a.ipynb" (NotebookFile bare_notebook)) 1)
           true 0 _ eq_refl eq_refl eq_refl).
Defined.

(** ** Detection after a run *)

(** The first line ends the text or is followed by a line boundary. *)
Lemma splitlines_first (s l0 : string) (ls : list string) :
  splitlines s = l0 :: ls →
  ∃ t, s = l0 +:+ t ∧ ∀ c t', t = String c t' → islinebreak c = true.
Proof.
  revert l0 ls; induction s as [|c s IH]; intros l0 ls; [done|].
  rewrite splitlines_unfold. destruct (islinebreak c) eqn:Hc.
  - destruct (_ && _) eqn:Hcr.
    + intros H. destruct s as [|d s]; [done|].
      apply andb_true_iff in Hcr as [_ Hd]. unfold newline in Hd.
      rewrite startswith_cons in Hd.
      apply andb_true_iff in Hd as [Hd _]. apply bool_decide_eq_true in Hd. subst d.
      rewrite splitlines_unfold in H. change (islinebreak LF) with true in H.
      rewrite (bool_decide_eq_false_2 (LF = "013"%char)) in H by done.
      injection H as <- _. eexists. split; [done|]. by intros ? ? [= <- _].
    + intros [= <- _]. eexists. split; [done|]. by intros ? ? [= <- _].
  - destruct (splitlines s) as [|l ls'] eqn:Hs.
    + intros [= <- _]. apply splitlines_nil in Hs as ->. by exists "".
    + intros [= <- _]. destruct (IH l ls' eq_refl) as (t & -> & Ht). by exists t.
Qed.

Lemma startswith_line (l t p : string) :
  one_line p = true → (∀ c t', t = String c t' → islinebreak c = true) →
  startswith (l +:+ t) p = startswith l p.
Proof.
  intros Hp Ht. revert l; induction p as [|d p IH]; intros l.
  - by rewrite !startswith_nil.
  - rewrite one_line_cons in Hp. apply andb_true_iff in Hp as [Hd Hp].
    destruct l as [|c l].
    + destruct t as [|c t']; [done|]. simpl String.append.
      rewrite startswith_cons. rewrite bool_decide_eq_false_2; [done|].
      intros ->. rewrite (Ht c t' eq_refl) in Hd. done.
    + simpl String.append. rewrite !startswith_cons. f_equal. by apply IH.
Qed.

Lemma lstrip_all_space (l : string) : all_chars isspace l = true → lstrip l = "".
Proof.
  induction l as [|c l IH]; simpl; [done|].
  intros [Hc Hl]%andb_true_iff. rewrite Hc. by apply IH.
Qed.

(** Where [lstrip] takes a text, seen from its lines. *)
Lemma lstrip_lead (text p : string) :
  one_line p = true →
  startswith (lstrip text) p = startswith (lead (splitlines text)) p.
Proof.
  intros Hp. induction text as [|c s IH]; [done|].
  rewrite splitlines_unfold. destruct (islinebreak c) eqn:Hc.
  - cbn [lstrip]. rewrite (break_is_space c Hc).
    destruct (_ && _); [done|]. by cbn [lead all_chars].
  - cbn [lstrip]. destruct (isspace c) eqn:Hsp.
    + rewrite IH. destruct (splitlines s) as [|l ls]; cbn [lead all_chars lstrip].
      * by rewrite Hsp.
      * rewrite Hsp. done.
    + destruct (splitlines s) as [|l ls] eqn:Hs; cbn [lead all_chars lstrip];
        rewrite Hsp; cbn [andb].
      * by apply splitlines_nil in Hs as ->.
      * destruct (splitlines_first _ _ _ Hs) as (t & -> & Ht).
        by apply (startswith_line (String c l) t p).
Qed.

Lemma lead_snoc (L : list string) : lead (L ++ [""]) = lead L.
Proof. induction L as [|l L IH]; [done|]. simpl. by rewrite IH. Qed.

Lemma lead_trim_last (L : list string) : lead (trim_last L) = lead L.
Proof.
  unfold trim_last. case_bool_decide as H; [|done].
  apply last_Some in H as [L' ->]. by rewrite removelast_last, lead_snoc.
Qed.

Lemma key_not_space (key rest : string) :
  key ≠ "" → all_chars is_key_char key = true →
  all_chars isspace (key +:+ rest) = false ∧ lstrip (key +:+ rest) = key +:+ rest.
Proof.
  destruct key as [|k key]; [done|]. intros _ [Hk _]%andb_true_iff.
  assert (isspace k = false) as Hs.
  { destruct (isspace k) eqn:E; [|done]. apply space_not_key in E. congruence. }
  simpl. by rewrite Hs.
Qed.

(** What follows the colon does not decide whether a line starts with the
    delimiter. *)
Lemma startswith_key (key x y : string) :
  startswith (key +:+ ":" +:+ x) "---" = startswith (key +:+ ":" +:+ y) "---".
Proof.
  destruct key as [|a [|b [|c key]]]; simpl String.append;
    rewrite ?startswith_cons, ?startswith_nil;
    rewrite ?(bool_decide_eq_false_2 ("-"%char = ":"%char)) by done;
    by rewrite ?andb_false_r, ?andb_false_l.
Qed.

Lemma normalize_line_lead (l : string) :
  all_chars isspace (normalize_line l) = all_chars isspace l
  ∧ startswith (lstrip (normalize_line l)) "---" = startswith (lstrip l) "---".
Proof.
  destruct (normalize_line_cases l) as [->|(key & val & q & Hm & -> & _)]; [done|].
  destruct (match_inv l key val Hm) as (Hne & Hk & _ & rest & tail & -> & _).
  destruct (key_not_space key (":" +:+ rest) Hne Hk) as [-> ->].
  destruct (key_not_space key (": " +:+ q) Hne Hk) as [-> ->].
  split; [done|]. apply (startswith_key key (" " +:+ q) rest).
Qed.

Lemma lead_normalized (L T : list string) :
  startswith (lead (normalize_front_matter_lines L ++ T)) "---"
  = startswith (lead (L ++ T)) "---".
Proof.
  rewrite normalize_front_matter_lines_map.
  induction L as [|l L IH]; [done|]. simpl.
  destruct (normalize_line_lead l) as [-> E].
  destruct (all_chars isspace l); [exact IH|exact E].
Qed.

(** The delimiter test of line 98 gives the same answer after the rewrite. *)
Lemma delimiter_test_kept (text : string) :
  opens_block (splitlines text) = false →
  startswith (lstrip (rewritten text)) "---" = startswith (lstrip text) "---".
Proof.
  intros Ho. unfold rewritten. rewrite Ho. unfold headed_source.
  rewrite !lstrip_lead by done.
  rewrite splitlines_join by apply headed_one_line, splitlines_one_line.
  rewrite lead_trim_last. unfold headed_lines. rewrite lead_normalized.
  by rewrite take_drop.
Qed.

Lemma headed_lookup (lines : list string) (i : nat) (x : string) :
  (i < 6)%nat → headed_lines lines !! i = Some x →
  ∃ l, x = normalize_line l.
Proof.
  intros Hi Hx. unfold headed_lines in Hx.
  apply lookup_app_Some in Hx as [Hx|[Hlen Hx]].
  - rewrite normalize_front_matter_lines_lookup in Hx.
    destruct (take 6 lines !! i) as [l|]; [|done]. injection Hx as <-. by exists l.
  - rewrite normalize_front_matter_lines_length, length_take in Hlen.
    apply lookup_lt_Some in Hx. rewrite length_drop in Hx. lia.
Qed.

Lemma trim_last_lookup (L : list string) (i : nat) (x : string) :
  trim_last L !! i = Some x → L !! i = Some x.
Proof.
  unfold trim_last. case_bool_decide as H; [|done].
  apply last_Some in H as [L' ->]. rewrite removelast_last.
  intros Hx. by apply lookup_app_l_Some.
Qed.

(** No line among the first three of a rewritten text is [title:]. *)
Lemma title_test_fails (text : string) :
  opens_block (splitlines text) = false →
  list_in "title:" (slice (splitlines (rewritten text)) 0 3) = false.
Proof.
  intros Ho. unfold rewritten. rewrite Ho. unfold headed_source.
  rewrite splitlines_join by apply headed_one_line, splitlines_one_line.
  unfold list_in. apply bool_decide_eq_false. intros Hin.
  unfold slice in Hin. rewrite drop_0 in Hin.
  apply list_elem_of_lookup in Hin as [i Hi].
  apply lookup_take_Some in Hi as [Hi Hlt].
  apply trim_last_lookup in Hi.
  destruct (headed_lookup _ i _ ltac:(lia) Hi) as [l E].
  symmetry in E. by apply normalize_line_title in E.
Qed.

Lemma opens_startswith (text : string) :
  opens_block (splitlines text) = true → startswith (lstrip text) "---" = true.
Proof.
  intros Ho. rewrite lstrip_lead by done.
  destruct (splitlines text) as [|l0 ls]; [done|].
  simpl in Ho. apply bool_decide_eq_true in Ho.
  destruct (strip_trimmed l0) as ((a & b & El & Ha & _) & _). rewrite Ho in El.
  assert (lstrip l0 = "---" +:+ b) as Hl.
  { rewrite El. by rewrite lstrip_app_spaces. }
  simpl. destruct (all_chars isspace l0) eqn:Hsp.
  - apply lstrip_all_space in Hsp. by rewrite Hsp in Hl.
  - rewrite Hl. apply startswith_app.
Qed.

Lemma join_cons_head (F : list string) (t : string) :
  startswith (lstrip (join newline ("---" :: F) +:+ t)) "---" = true.
Proof.
  destruct F as [|y F].
  - change (lstrip (join newline ["---"] +:+ t)) with ("---" +:+ t).
    apply startswith_app.
  - rewrite join_cons, !append_assoc.
    change (lstrip ("---" +:+ newline +:+ join newline (y :: F) +:+ t))
      with ("---" +:+ newline +:+ join newline (y :: F) +:+ t).
    apply startswith_app.
Qed.

(** A text that the delimiter test accepts is accepted again after the
    rewrite, whatever path it took. *)
Lemma delimiter_test_again (text : string) :
  startswith (lstrip text) "---" = true →
  startswith (lstrip (rewritten text)) "---" = true.
Proof.
  intros Hd. destruct (opens_block (splitlines text)) eqn:Ho.
  - unfold rewritten. rewrite Ho.
    destruct (closing (splitlines text)) as [e|] eqn:Hc.
    + unfold closed_source.
      destruct (closed_shape _ _ Ho Hc) as (l0 & fm & rest & _ & _ & ->).
      apply join_cons_head.
    + unfold unclosed_source. rewrite lstrip_lead by done.
      rewrite splitlines_join
        by apply normalize_front_matter_lines_one_line, splitlines_one_line.
      rewrite lead_trim_last.
      rewrite <- (List.app_nil_r (normalize_front_matter_lines _)).
      rewrite lead_normalized, List.app_nil_r. by rewrite <- lstrip_lead.
  - by rewrite delimiter_test_kept.
Qed.

(** The first cell of the notebook a run returns, and its text. *)
Lemma fix_tree_again (nb nb1 : notebook) (w w1 : world) (changed : bool)
    (first : cell) (rest : list cell) :
  fix_tree nb w = Ok (nb1, changed, w1) →
  cells nb = first :: rest →
  flagged nb1
  = detected (if detected (src_text first) then rewritten (src_text first)
              else src_text first).
Proof.
  intros E Hc.
  assert (existsb lacks_id (cells nb1) = false) as Hids.
  { apply all_have_ids. intros c Hin. by eapply fix_tree_ids. }
  destruct (fix_tree_first nb w first rest Hc) as (c' & cs' & w' & E' & Hx & _).
  rewrite E in E'. injection E' as -> _ _.
  unfold flagged. rewrite Hids. simpl. rewrite <- Hx.
  destruct (detected (src_text c')) eqn:Hd.
  - destruct (front_detected c' Hd) as [Hs _]. unfold src_text at 1. by rewrite Hs.
  - unfold front. by rewrite Hd, Hd.
Qed.

(** Extra X14: when the text of the first cell, without the white space in
    front, does not start with [---], one run settles the notebook: a
    second run detects nothing, also when the first run detected a line
    [title:], changes nothing and writes nothing. *)
Theorem title_detection_once (nb nb1 : notebook) (w w1 : world) (changed : bool)
    (first : cell) (rest : list cell) :
  fix_tree nb w = Ok (nb1, changed, w1) →
  cells nb = first :: rest →
  startswith (lstrip (src_text first)) "---" = false →
  ∀ w2, fix_tree nb1 w2 = Ok (nb1, false, w2)
        ∧ ∀ path, nbformat_read path w2 = Ok nb1 → fix_notebook path w2 = Ok w2.
Proof.
  intros E Hc Hd w2.
  assert (flagged nb1 = false) as Hf.
  { rewrite (fix_tree_again _ _ _ _ _ _ _ E Hc).
    destruct (detected (src_text first)) eqn:Hdet; [|done].
    assert (opens_block (splitlines (src_text first)) = false) as Ho.
    { destruct (opens_block _) eqn:Ho; [|done].
      apply opens_startswith in Ho. congruence. }
    unfold detected. by rewrite delimiter_test_kept, Hd, title_test_fails. }
  split; [by apply fix_tree_unflagged|].
  intros path Hr. destruct (fix_notebook_read path w2 nb1 Hr) as [_ E2].
  by rewrite Hf in E2.
Qed.

Lemma title_detection_witness :
  fix_tree title_fixed (world_with "t.ipynb" (NotebookFile title_fixed))
  = Ok (title_fixed, false, world_with "t.ipynb" (NotebookFile title_fixed))
  ∧ ∀ path,
      nbformat_read path (world_with "t.ipynb" (NotebookFile title_fixed))
      = Ok title_fixed →
      fix_notebook path (world_with "t.ipynb" (NotebookFile title_fixed))
      = Ok (world_with "t.ipynb" (NotebookFile title_fixed)).
Proof.
  exact (title_detection_once title_notebook title_fixed
           (world_with "t.ipynb" (NotebookFile title_notebook))
           (world_with "t.ipynb" (NotebookFile title_notebook))
           true _ _ eq_refl eq_refl eq_refl
           (world_with "t.ipynb" (NotebookFile title_fixed))).
Defined.

(** Extra X15: when the text of the first cell, without the white space in
    front, starts with [---], the notebook a run returns is flagged again:
    every later run assigns the source again and, when the file can be
    written, writes it and prints a line, whether or not anything differs. *)
Theorem delimiter_rewritten_every_run
    (nb nb1 : notebook) (w w1 : world) (changed : bool)
    (first : cell) (rest : list cell) :
  fix_tree nb w = Ok (nb1, changed, w1) →
  cells nb = first :: rest →
  startswith (lstrip (src_text first)) "---" = true →
  changed = true ∧ flagged nb1 = true
  ∧ ∀ path w2, nbformat_read path w2 = Ok nb1 → write_errors w2 !! path = None →
      ∃ nb2 w3, fix_notebook path w2 = Ok w3
        ∧ events w3 = events w2 ++ [Wrote path nb2; Printed ("Normalized: " +:+ path)].
Proof.
  intros E Hc Hd.
  assert (detected (src_text first) = true) as Hdet.
  { unfold detected. by rewrite Hd. }
  assert (flagged nb1 = true) as Hf.
  { rewrite (fix_tree_again _ _ _ _ _ _ _ E Hc), Hdet.
    unfold detected. by rewrite delimiter_test_again. }
  split; [|split; [done|]].
  - destruct (fix_tree_first nb w first rest Hc) as (c' & cs' & w' & E' & _).
    rewrite E in E'. injection E' as _ -> _. unfold flagged.
    rewrite Hc, Hdet. apply orb_true_r.
  - intros path w2 Hr Hw. destruct (fix_notebook_read path w2 nb1 Hr) as [_ E2].
    rewrite Hf, Hw in E2. eexists _, _. split; [exact E2|done].
Qed.

Lemma delimiter_rewritten_witness :
  true = true ∧ flagged settled_notebook = true
  ∧ ∀ path w2, nbformat_read path w2 = Ok settled_notebook →
      write_errors w2 !! path = None →
      ∃ nb2 w3, fix_notebook path w2 = Ok w3
        ∧ events w3 = events w2 ++ [Wrote path nb2; Printed ("Normalized: " +:+ path)].
Proof.
  exact (delimiter_rewritten_every_run settled_notebook settled_notebook
           (world_with "post.ipynb" (NotebookFile settled_notebook))
           (world_with "post.ipynb" (NotebookFile settled_notebook))
           true _ _ eq_refl eq_refl eq_refl).
Defined.

(** ** A first cell without text *)

Lemma splitlines_chars (p : ascii → bool) (s : string) :
  all_chars p s = true → Forall (λ l, all_chars p l = true) (splitlines s).
Proof.
  induction s as [|c s IH]; [constructor|].
  rewrite splitlines_unfold. intros [Hc Hs]%andb_true_iff. specialize (IH Hs).
  destruct (islinebreak c).
  - destruct (_ && _); [done|]. by constructor.
  - destruct (splitlines s) as [|l ls].
    + constructor; [|constructor]. simpl. by rewrite Hc.
    + inversion IH; subst. constructor; [|done]. simpl. by rewrite Hc.
Qed.

Lemma detected_blank (text : string) :
  all_chars isspace text = true → detected text = false.
Proof.
  intros H. unfold detected. rewrite (lstrip_all_space _ H).
  change (startswith "" "---") with false. cbn [orb].
  unfold list_in. apply bool_decide_eq_false. intros Hin.
  unfold slice in Hin. rewrite drop_0 in Hin.
  apply list_elem_of_lookup in Hin as [i Hi].
  apply lookup_take_Some in Hi as [Hi _].
  pose proof (splitlines_chars isspace text H) as Hall.
  rewrite Forall_forall in Hall.
  apply list_elem_of_lookup_2 in Hi. apply Hall in Hi. done.
Qed.

(** Extra X16: a notebook without cells, and a notebook whose first cell
    has no source, an empty one or white space only, is not taken for front
    matter: the first cell keeps its type and its source, [changed] is set
    by the missing ids alone, and a notebook whose cells all have ids is
    left as it is, with nothing written and nothing printed. *)
Theorem blank_first_cell_ignored (nb : notebook) (w : world) :
  (∀ first, cells nb !! 0%nat = Some first →
            all_chars isspace (src_text first) = true) →
  ∃ nb' w',
    fix_tree nb w = Ok (nb', existsb lacks_id (cells nb), w')
    ∧ (∀ first, cells nb !! 0%nat = Some first →
         ∃ first', cells nb' !! 0%nat = Some first'
           ∧ cell_type first' = cell_type first ∧ source first' = source first)
    ∧ (existsb lacks_id (cells nb) = false →
       nb' = nb ∧ w' = w
       ∧ ∀ path, nbformat_read path w = Ok nb → fix_notebook path w = Ok w).
Proof.
  intros Hb.
  assert (flagged nb = existsb lacks_id (cells nb)) as Hf.
  { unfold flagged. destruct (cells nb) as [|c cs] eqn:Hc; [apply orb_false_r|].
    rewrite detected_blank; [apply orb_false_r|]. by apply Hb. }
  pose proof (fix_tree_eq nb w) as E. rewrite flagged_eq, Hf in E.
  eexists _, _. split; [exact E|]. split.
  - intros first H0. pose proof (fix_tree_lookup _ _ _ _ _ 0 first E H0) as Hl.
    cbv zeta in Hl. eexists. split; [exact Hl|].
    destruct (decide (0%nat = 0%nat)); [|done].
    set (c1 := if lacks_id first then _ else first).
    assert (cell_type c1 = cell_type first ∧ source c1 = source first) as [Ht Hs].
    { unfold c1. by destruct (lacks_id first). }
    assert (detected (src_text c1) = false) as Hd.
    { apply detected_blank. unfold src_text. rewrite Hs. by apply Hb. }
    unfold front. by rewrite Hd.
  - intros Hids. rewrite <- Hf in Hids.
    pose proof (fix_tree_unflagged nb w Hids) as E2. rewrite E in E2.
    injection E2 as -> _ ->. split; [done|]. split; [done|].
    intros path Hr. destruct (fix_notebook_read path w nb Hr) as [_ E3].
    by rewrite Hids in E3.
Qed.

Lemma blank_first_cell_witness :
  ∃ nb' w',
    fix_tree sourceless_notebook (world_with "s.ipynb" (NotebookFile sourceless_notebook))
    = Ok (nb', existsb lacks_id (cells sourceless_notebook), w')
    ∧ (∀ first, cells sourceless_notebook !! 0%nat = Some first →
         ∃ first', cells nb' !! 0%nat = Some first'
           ∧ cell_type first' = cell_type first ∧ source first' = source first)
    ∧ (existsb lacks_id (cells sourceless_notebook) = false →
       nb' = sourceless_notebook
       ∧ w' = world_with "s.ipynb" (NotebookFile sourceless_notebook)
       ∧ ∀ path,
           nbformat_read path (world_with "s.ipynb" (NotebookFile sourceless_notebook))
           = Ok sourceless_notebook →
           fix_notebook path (world_with "s.ipynb" (NotebookFile sourceless_notebook))
           = Ok (world_with "s.ipynb" (NotebookFile sourceless_notebook))).
Proof.
  apply (blank_first_cell_ignored sourceless_notebook
           (world_with "s.ipynb" (NotebookFile sourceless_notebook))).
  intros first [= <-]. reflexivity.
Defined.

(** ** A second run *)

Lemma settles_cases (text : string) : settles text ∨ ¬ settles text.
Proof.
  unfold settles.
  destruct (decide (startswith (lstrip text) "---" = false
                    ∨ (opens_block (splitlines text) = true
                       ∧ closing (splitlines text) ≠ None)
                    ∨ last (splitlines text) ≠ Some "")) as [H|H];
    [by left|by right].
Qed.

Lemma normalize_snoc (X : list string) :
  normalize_front_matter_lines (X ++ [""])
  = normalize_front_matter_lines X ++ [""].
Proof. rewrite !normalize_front_matter_lines_map. by rewrite map_app. Qed.

Lemma headed_snoc (X : list string) :
  headed_lines (X ++ [""]) = headed_lines X ++ [""].
Proof.
  unfold headed_lines. destruct (decide (6 ≤ length X)%nat) as [Hl|Hl].
  - rewrite take_app_le, drop_app_le by lia. by rewrite <- List.app_assoc.
  - rewrite take_app_ge, drop_app_ge by lia.
    rewrite (take_ge X), (drop_ge X) by lia.
    destruct (6 - length X)%nat as [|k] eqn:Hk; [lia|].
    change (take (S k) [""]) with ([""] ++ take k []).
    rewrite take_nil. change (drop (S k) [""]) with (drop k (@nil string)).
    rewrite drop_nil, !List.app_nil_r. apply normalize_snoc.
Qed.

(** A detected text that settles is rewritten to a text a second run
    leaves as it is. *)
Lemma rewritten_stable (text : string) :
  detected text = true → settles text →
  detected (rewritten text) = true →
  rewritten (rewritten text) = rewritten text.
Proof.
  intros Hd [Hs|[[Ho Hc]|Hl]] Hd2.
  - assert (opens_block (splitlines text) = false) as Ho.
    { destruct (opens_block _) eqn:Ho; [|done].
      apply opens_startswith in Ho. congruence. }
    unfold detected in Hd2.
    by rewrite delimiter_test_kept, Hs, title_test_fails in Hd2.
  - destruct (closing (splitlines text)) as [e|] eqn:Hce; [|done].
    by destruct (rewritten_closed_stable text e Ho Hce).
  - destruct (opens_block (splitlines text)) eqn:Ho.
    + destruct (closing (splitlines text)) as [e|] eqn:Hce.
      * by destruct (rewritten_closed_stable text e Ho Hce).
      * by destruct (rewritten_unclosed_stable text Ho Hce Hl).
    + by apply rewritten_headed_stable.
Qed.

(** A text that does not settle: the second run takes one more newline. *)
Lemma rewritten_unsettled (text : string) :
  ¬ settles text →
  detected text = true ∧ detected (rewritten text) = true
  ∧ rewritten text = rewritten (rewritten text) +:+ newline.
Proof.
  intros Hn.
  assert (startswith (lstrip text) "---" = true) as Hd.
  { destruct (startswith _ _) eqn:E; [done|]. destruct Hn. by left. }
  assert (last (splitlines text) = Some "") as Hl.
  { destruct (decide (last (splitlines text) = Some "")) as [E|E]; [done|].
    destruct Hn. by right; right. }
  assert (detected text = true) as Hdet by (unfold detected; by rewrite Hd).
  assert (detected (rewritten text) = true) as Hdet2.
  { unfold detected. by rewrite delimiter_test_again. }
  split; [done|]. split; [done|].
  pose proof (splitlines_one_line text) as Hone.
  pose proof Hd as Hlead. rewrite lstrip_lead in Hlead by done.
  apply last_Some in Hl as [X HX]. rewrite HX in Hone, Hlead.
  apply Forall_app in Hone as [HoneX _].
  assert (X ≠ []) as HXne by (intros ->; done).
  destruct (opens_block (splitlines text)) eqn:Ho.
  - assert (closing (splitlines text) = None) as Hc.
    { destruct (closing _) eqn:Hc; [|done]. destruct Hn. right; left.
      split; [done|]. by rewrite Hc. }
    destruct X as [|l0 ls]; [done|].
    rewrite HX in Ho, Hc. simpl in Ho. apply bool_decide_eq_true in Ho.
    unfold closing in Hc. change (drop 1 ((l0 :: ls) ++ [""])) with (ls ++ [""]) in Hc.
    apply find_from_None in Hc.
    assert ("---" ∉ ls) as Hls.
    { intros Hin. apply Hc. apply elem_of_app. by left. }
    destruct (rewritten_unclosed text l0 (ls ++ [""]) HX Ho Hc) as [_ ->].
    change (l0 :: ls ++ [""]) with ((l0 :: ls) ++ [""]).
    rewrite normalize_snoc.
    assert (normalize_front_matter_lines (l0 :: ls)
            = l0 :: normalize_front_matter_lines ls) as EN.
    { rewrite !normalize_front_matter_lines_map. simpl.
      by rewrite normalize_delimiter. }
    rewrite join_snoc by (by rewrite EN).
    set (t := join newline (normalize_front_matter_lines (l0 :: ls)) +:+ newline).
    assert (splitlines t = l0 :: normalize_front_matter_lines ls) as Hsp.
    { unfold t. rewrite splitlines_join_nl.
      - done.
      - by apply normalize_front_matter_lines_one_line.
      - by rewrite EN. }
    destruct (rewritten_unclosed t l0 _ Hsp Ho (normalize_keeps_open ls Hls))
      as [_ ->].
    rewrite <- EN, normalize_front_matter_lines_idem. done.
  - assert (opens_block X = false) as HoX.
    { rewrite HX in Ho. by destruct X. }
    assert (rewritten text = headed_source (splitlines text)) as ->.
    { unfold rewritten. by rewrite Ho. }
    unfold headed_source. rewrite HX, headed_snoc.
    assert (headed_lines X ≠ []) as Hne.
    { intros E. by apply headed_nil in E. }
    rewrite join_snoc by done.
    set (t := join newline (headed_lines X) +:+ newline).
    assert (splitlines t = headed_lines X) as Hsp.
    { unfold t. apply splitlines_join_nl; [by apply headed_one_line|done]. }
    unfold rewritten. rewrite Hsp, headed_opens by done.
    unfold headed_source. by rewrite headed_headed.
Qed.

Lemma front_text (c : cell) :
  detected (src_text c) = true → src_text (front c) = rewritten (src_text c).
Proof.
  intros Hd. destruct (front_detected c Hd) as [Hsrc _].
  unfold src_text at 1. by rewrite Hsrc.
Qed.

Lemma front_idem (c : cell) : settles (src_text c) → front (front c) = front c.
Proof.
  intros Hs. destruct (detected (src_text c)) eqn:Hd.
  - destruct (front_detected c Hd) as [Hsrc Ht].
    pose proof (front_text c Hd) as Hx.
    unfold front at 1. rewrite Hx.
    destruct (detected (rewritten (src_text c))) eqn:Hd2; [|done].
    rewrite rewritten_stable by done. rewrite retag_markdown by done.
    destruct (front c) as [t s i r] eqn:E. simpl in *.
    unfold set_source. simpl. by rewrite Hsrc.
  - assert (front c = c) as E by (unfold front; by rewrite Hd).
    by rewrite !E.
Qed.

Lemma front_unsettled (c : cell) :
  ¬ settles (src_text c) →
  src_text (front c) = src_text (front (front c)) +:+ newline.
Proof.
  intros Hn. destruct (rewritten_unsettled _ Hn) as (Hd & Hd2 & E).
  pose proof (front_text c Hd) as Hx.
  rewrite (front_text (front c)) by (by rewrite Hx).
  by rewrite Hx.
Qed.

Lemma append_newline_ne (s : string) : s ≠ s +:+ newline.
Proof.
  intros E. apply (f_equal String.length) in E.
  rewrite length_append in E. simpl in E. lia.
Qed.

(** The tree of a second run. *)
Lemma fix_tree_twice (nb nb1 : notebook) (w w1 w2 : world) (changed : bool) :
  fix_tree nb w = Ok (nb1, changed, w1) →
  ∃ nb2 changed2,
    fix_tree nb1 w2 = Ok (nb2, changed2, w2)
    ∧ cell_id <$> cells nb2 = cell_id <$> cells nb1
    ∧ cell_type <$> cells nb2 = cell_type <$> cells nb1
    ∧ drop 1 (cells nb2) = drop 1 (cells nb1)
    ∧ ((∀ first rest, cells nb = first :: rest → settles (src_text first)) →
       nb2 = nb1)
    ∧ (∀ first rest, cells nb = first :: rest → ¬ settles (src_text first) →
       ∃ c1 c2, cells nb1 !! 0%nat = Some c1 ∧ cells nb2 !! 0%nat = Some c2
         ∧ src_text c1 = src_text c2 +:+ newline).
Proof.
  intros E.
  assert (existsb lacks_id (cells nb1) = false) as Hids.
  { apply all_have_ids. intros c Hc. by eapply fix_tree_ids. }
  pose proof (fix_tree_eq nb1 w2) as E2. rewrite ensure_ids_none in E2 by done.
  simpl in E2. eexists _, _. split; [exact E2|].
  rewrite fix_tree_eq in E. injection E as <- _ _. simpl.
  destruct (cells nb) as [|first rest] eqn:Hc.
  { simpl. by repeat split. }
  destruct (ensure_ids_head first rest w) as (c' & cs' & -> & _ & Hs).
  assert (src_text c' = src_text first) as Hx by (unfold src_text; by rewrite Hs).
  simpl. split; [by rewrite front_id|]. split; [by rewrite front_type|].
  split; [done|]. split.
  - intros Hset. unfold set_cells. simpl.
    rewrite front_idem; [done|]. rewrite Hx. by apply (Hset first rest).
  - intros f r [= <- <-] Hn. eexists _, _. split; [done|]. split; [done|].
    apply front_unsettled. by rewrite Hx.
Qed.

(** The files after a second run of [fix_notebook]. *)
Lemma fix_notebook_twice (path : string) (w wA wB : world) (nb : notebook) :
  nbformat_read path w = Ok nb →
  (∀ first rest, cells nb = first :: rest → settles (src_text first)) →
  fix_notebook path w = Ok wA →
  fix_notebook path wA = Ok wB →
  fs wB = fs wA.
Proof.
  intros Hr Hset HA HB.
  destruct (fix_notebook_read path w nb Hr) as [E1 E2].
  rewrite HA in E2. injection E2 as E2.
  destruct (flagged nb) eqn:Hf.
  - destruct (write_errors w !! path) as [[e|e partial]|] eqn:Hw.
    + assert (nbformat_read path wA = Ok nb) as HrA.
      { rewrite E2. unfold nbformat_read in *. done. }
      destruct (fix_notebook_read path wA nb HrA) as [_ E4].
      rewrite HB, Hf in E4.
      assert (write_errors wA !! path = Some (BeforeOpen e)) as HwA by (by rewrite E2).
      rewrite HwA in E4. injection E4 as ->. done.
    + assert (∃ x, nbformat_read path wA = Raise x) as [x HrA].
      { rewrite E2. unfold nbformat_read. simpl. rewrite lookup_insert_eq.
        by eexists. }
      unfold fix_notebook in HB. rewrite HrA in HB. by injection HB as ->.
    + set (nb1 := set_cells nb (with_front (ensure_ids (cells nb) w).1)) in *.
      assert (nbformat_read path wA = Ok nb1) as HrA.
      { rewrite E2. unfold nbformat_read. simpl. by rewrite lookup_insert_eq. }
      destruct (fix_notebook_read path wA nb1 HrA) as [E3 E4].
      set (nb1' := set_cells nb1 (with_front (ensure_ids (cells nb1) wA).1)) in *.
      destruct (fix_tree_twice nb nb1 w _ wA _ E1) as (nb2 & c2 & E5 & _ & _ & _ & Hn & _).
      assert (nb1' = nb1) as Hsame.
      { rewrite <- (Hn Hset). congruence. }
      rewrite Hsame in E4. clearbody nb1'. clear Hsame.
      rewrite HB in E4. injection E4 as ->.
      destruct (flagged nb1); [|done].
      assert (write_errors wA !! path = None) as HwA by (by rewrite E2).
      rewrite HwA. simpl. rewrite E2. simpl. by rewrite insert_insert_eq.
  - subst wA. rewrite HA in HB. by injection HB as ->.
Qed.

(** Claim C5, amended (idempotence): a second run on the notebook a first
    run returned draws no entropy and keeps the ids, the types and every
    cell after the first.  It returns the notebook of the first run exactly
    when the source of the first cell settles: the text does not start with
    [---] after its leading white space, or its block is closed, or its last
    line is not empty (a notebook without cells always settles).  Then the
    file a second [fix_notebook] leaves at the path is the file the first
    one left.  When the source does not settle, the source the first run
    assigned is the source the second run assigns followed by a newline: the
    second run takes one more newline from the end. *)
Theorem second_run_settled (nb nb1 : notebook) (w w1 : world) (changed : bool) :
  fix_tree nb w = Ok (nb1, changed, w1) →
  ∀ w2, ∃ nb2 changed2,
    fix_tree nb1 w2 = Ok (nb2, changed2, w2)
    ∧ cell_id <$> cells nb2 = cell_id <$> cells nb1
    ∧ cell_type <$> cells nb2 = cell_type <$> cells nb1
    ∧ drop 1 (cells nb2) = drop 1 (cells nb1)
    ∧ (nb2 = nb1
       ↔ ∀ first rest, cells nb = first :: rest → settles (src_text first))
    ∧ (∀ first rest, cells nb = first :: rest → ¬ settles (src_text first) →
       ∃ c1 c2, cells nb1 !! 0%nat = Some c1 ∧ cells nb2 !! 0%nat = Some c2
         ∧ src_text c1 = src_text c2 +:+ newline)
    ∧ ((∀ first rest, cells nb = first :: rest → settles (src_text first)) →
       ∀ path wA wB,
           nbformat_read path w = Ok nb →
           fix_notebook path w = Ok wA →
           fix_notebook path wA = Ok wB →
           fs wB = fs wA).
Proof.
  intros E w2.
  destruct (fix_tree_twice nb nb1 w w1 w2 changed E)
    as (nb2 & c2 & E2 & Hi & Ht & Hd & Hn & Hu).
  exists nb2, c2. split; [done|]. split; [done|]. split; [done|]. split; [done|].
  split; [|split; [exact Hu|]].
  - split; [|exact Hn]. intros -> first rest Hc.
    destruct (settles_cases (src_text first)) as [Hs|Hs]; [done|].
    destruct (Hu first rest Hc Hs) as (c1 & c1' & H1 & H2 & Hx).
    rewrite H1 in H2. injection H2 as <-. by apply append_newline_ne in Hx.
  - intros Hset path wA wB Hr HA HB.
    by apply (fix_notebook_twice path w wA wB nb).
Qed.

(** C5, amended, at [trailing_once] and the notebook it becomes. *)
Lemma second_run_witness :
  ∃ nb2 changed2,
    fix_tree trailing_twice (world_with "draft.ipynb" (NotebookFile trailing_twice))
    = Ok (nb2, changed2, world_with "draft.ipynb" (NotebookFile trailing_twice))
    ∧ cell_id <$> cells nb2 = cell_id <$> cells trailing_twice
    ∧ nb2 = trailing_twice.
Proof.
  destruct (second_run_settled trailing_once trailing_twice
              (world_with "draft.ipynb" (NotebookFile trailing_once))
              (world_with "draft.ipynb" (NotebookFile trailing_once)) true eq_refl
              (world_with "draft.ipynb" (NotebookFile trailing_twice)))
    as (nb2 & c2 & H1 & H2 & _ & _ & H5 & _).
  exists nb2, c2. split; [exact H1|]. split; [exact H2|].
  apply H5. intros first rest [= <- <-]. right; right.
  intros H. discriminate H.
Defined.

(** Claim C5 as stated fails: the block of [trailing_notebook] is never
    closed and its source ends with empty lines; the first run drops one
    newline and the second run drops one more. *)
Lemma second_run_differs :
  fix_tree trailing_notebook (world_with "draft.ipynb" (NotebookFile trailing_notebook))
  = Ok (trailing_once, true, world_with "draft.ipynb" (NotebookFile trailing_notebook))
  ∧ fix_tree trailing_once (world_with "draft.ipynb" (NotebookFile trailing_once))
    = Ok (trailing_twice, true, world_with "draft.ipynb" (NotebookFile trailing_once))
  ∧ trailing_twice ≠ trailing_once.
Proof. split; [by vm_compute|]. split; [by vm_compute|]. by vm_compute. Qed.
